(** * psxeasy: the chart normalizer, the snapshot parser and the market summary

    A shallow embedding of [src/services/psxService.ts] (class [PSXService])
    and of the record types of [types/stock.ts]: [parseJSONChartData] with
    [getDataLimitForInterval], [aggregateDataByInterval],
    [getIntervalMinutes] and [getIntervalKey]; [parseHTMLData]; and
    [calculateMarketSummary].  The fetch loops, the mock generators and the
    scraping of a detail page are not embedded.

    Conventions of the embedding.

    - A JavaScript [number] is the type [number] below: NaN, the two
      infinities, or a finite value.  Finite values are exact rationals kept
      in lowest terms; the rounding and the overflow of binary64 and the sign
      of zero are not modelled.
    - A timestamp that [toISOString] has accepted is a finite number, so the
      [timestamp] field of a chart point is a rational; a volume that went
      through [parseInt(..) || 0] is an integer, so [volume] is in [Z].
    - An exception that the [try] of the enclosing method catches is the
      value [None] of an [option].
    - The built-ins [parseFloat], [parseInt], [Number], [Date] and
      [toISOString] follow ECMAScript on strings of one-byte characters.
    - [Date] uses the host time zone in [getMinutes] and [setMinutes]; the
      offset of local time from UTC is the parameter [tza] (milliseconds,
      constant over the data, as in a zone without daylight saving).
    - [Array.prototype.sort] is stable; it is an insertion sort here. *)

From Stdlib Require Import ZArith QArith Qround Qabs List String Ascii Bool Lia Lqa.
From Stdlib Require Import Sorted Permutation.
Import ListNotations.

Local Open Scope Z_scope.

(** ** JavaScript numbers *)

Inductive number : Type :=
| NaN
| PInf
| NInf
| Fin (q : Q).

Definition fin (q : Q) : number := Fin (Qred q).

Definition num_of_Z (z : Z) : number := Fin (inject_Z z).

Definition zero : number := Fin 0.

(** [a + b] *)
Definition nadd (a b : number) : number :=
  match a, b with
  | NaN, _ | _, NaN => NaN
  | PInf, NInf | NInf, PInf => NaN
  | PInf, _ | _, PInf => PInf
  | NInf, _ | _, NInf => NInf
  | Fin x, Fin y => fin (x + y)
  end.

(** sign of a finite value against 0 *)
Definition qsign (x : Q) : comparison := (x ?= 0)%Q.

Definition inf_of_sign (c : comparison) : number :=
  match c with
  | Lt => NInf
  | Gt => PInf
  | Eq => NaN
  end.

(** [a * b] *)
Definition nmul (a b : number) : number :=
  match a, b with
  | NaN, _ | _, NaN => NaN
  | PInf, PInf | NInf, NInf => PInf
  | PInf, NInf | NInf, PInf => NInf
  | PInf, Fin y | Fin y, PInf => inf_of_sign (qsign y)
  | NInf, Fin y | Fin y, NInf => inf_of_sign (CompOpp (qsign y))
  | Fin x, Fin y => fin (x * y)
  end.

(** [a / b]; a zero divisor counts as +0 *)
Definition ndiv (a b : number) : number :=
  match a, b with
  | NaN, _ | _, NaN => NaN
  | (PInf | NInf), (PInf | NInf) => NaN
  | PInf, Fin y => match qsign y with Lt => NInf | _ => PInf end
  | NInf, Fin y => match qsign y with Lt => PInf | _ => NInf end
  | Fin _, (PInf | NInf) => zero
  | Fin x, Fin y =>
      match qsign y with
      | Eq => inf_of_sign (qsign x)
      | _ => fin (x / y)
      end
  end.

(** three-way comparison; [None] when an operand is NaN *)
Definition ncompare (a b : number) : option comparison :=
  match a, b with
  | NaN, _ | _, NaN => None
  | PInf, PInf | NInf, NInf => Some Eq
  | PInf, _ | _, NInf => Some Gt
  | NInf, _ | _, PInf => Some Lt
  | Fin x, Fin y => Some (x ?= y)%Q
  end.

(** [a > b], [a < b], [a === b], [a >= b] *)
Definition ngt (a b : number) : bool :=
  match ncompare a b with Some Gt => true | _ => false end.
Definition nlt (a b : number) : bool :=
  match ncompare a b with Some Lt => true | _ => false end.
Definition nstricteq (a b : number) : bool :=
  match ncompare a b with Some Eq => true | _ => false end.
Definition nge (a b : number) : bool :=
  match ncompare a b with Some (Gt | Eq) => true | _ => false end.

Definition isNaN (a : number) : bool :=
  match a with NaN => true | _ => false end.

(** ToBoolean on a number: NaN and 0 are falsy *)
Definition truthy (a : number) : bool :=
  match a with
  | NaN => false
  | Fin x => negb (Qeq_bool x 0)
  | _ => true
  end.

(** [a || 0] *)
Definition or_zero (a : number) : number := if truthy a then a else zero.

Definition Qlt_bool (x y : Q) : bool := negb (Qle_bool y x).

(** ToIntegerOrInfinity on a finite value: truncation towards zero *)
Definition qtrunc (x : Q) : Z :=
  if Qle_bool 0 x then Qfloor x else Qceiling x.

Definition ten21 : Q := inject_Z (10 ^ 21).

(** [parseFloat(x.toFixed(2))].  [toFixed] prints NaN and the infinities by
    name and a value of magnitude 1e21 or more as [String(x)], which
    [parseFloat] reads back; otherwise it prints [n / 100] for the integer
    [n] nearest to [100 * |x|], the larger one on a tie, with the sign of
    [x]. *)
Definition toFixed2 (a : number) : number :=
  match a with
  | Fin x =>
      if Qle_bool ten21 (Qabs x) then fin x
      else
        let n := Qfloor (Qabs x * 100 + (1 # 2))%Q in
        if Qle_bool 0 x then fin (n # 100) else fin (- n # 100)
  | _ => a
  end.

(** ** Strings read as numbers: [parseFloat], [parseInt], [Number] *)

Local Open Scope string_scope.

(** the white space of one byte that [trim], [parseFloat] and [parseInt] skip *)
Definition isWhiteSpace (c : ascii) : bool :=
  match nat_of_ascii c with
  | 9%nat | 10%nat | 11%nat | 12%nat | 13%nat | 32%nat => true
  | _ => false
  end.

Fixpoint trimStart (s : string) : string :=
  match s with
  | String c r => if isWhiteSpace c then trimStart r else s
  | EmptyString => EmptyString
  end.

Fixpoint trimEnd (s : string) : string :=
  match s with
  | String c r =>
      match trimEnd r with
      | EmptyString => if isWhiteSpace c then EmptyString else String c EmptyString
      | r' => String c r'
      end
  | EmptyString => EmptyString
  end.

(** [s.trim()] *)
Definition trim (s : string) : string := trimEnd (trimStart s).

Definition decDigit (c : ascii) : option Z :=
  let n := Z.of_nat (nat_of_ascii c) in
  if Z.leb 48 n && Z.leb n 57 then Some (n - 48) else None.

Definition hexDigit (c : ascii) : option Z :=
  let n := Z.of_nat (nat_of_ascii c) in
  if Z.leb 48 n && Z.leb n 57 then Some (n - 48)
  else if Z.leb 97 n && Z.leb n 102 then Some (n - 87)
  else if Z.leb 65 n && Z.leb n 70 then Some (n - 55)
  else None.

Definition octDigit (c : ascii) : option Z :=
  let n := Z.of_nat (nat_of_ascii c) in
  if Z.leb 48 n && Z.leb n 55 then Some (n - 48) else None.

Definition binDigit (c : ascii) : option Z :=
  let n := Z.of_nat (nat_of_ascii c) in
  if Z.leb 48 n && Z.leb n 49 then Some (n - 48) else None.

(** the longest prefix of digits, and what follows it *)
Fixpoint spanDigits (dv : ascii -> option Z) (s : string) : list Z * string :=
  match s with
  | String c r =>
      match dv c with
      | Some d => let (ds, rest) := spanDigits dv r in (d :: ds, rest)
      | None => ([], s)
      end
  | EmptyString => ([], EmptyString)
  end.

Definition digitsValue (radix : Z) (ds : list Z) : Z :=
  fold_left (fun acc d => acc * radix + d) ds 0.

(** an optional sign: [true] for a minus *)
Definition takeSign (s : string) : bool * string :=
  match s with
  | String "-" r => (true, r)
  | String "+" r => (false, r)
  | _ => (false, s)
  end.

Fixpoint dropPrefix (p s : string) : option string :=
  match p, s with
  | EmptyString, _ => Some s
  | String a p', String b s' => if Ascii.eqb a b then dropPrefix p' s' else None
  | String _ _, EmptyString => None
  end.

(** [m * 10 ^ e] *)
Definition scale10 (m e : Z) : Q :=
  if Z.leb 0 e then inject_Z (m * 10 ^ e) else Qmake m (Z.to_pos (10 ^ (- e))).

(** an exponent part [e], [E] with an optional sign and at least one digit;
    a malformed one is not part of the literal *)
Definition takeExponent (s : string) : Z * string :=
  match s with
  | String c r =>
      if Ascii.eqb c "e" || Ascii.eqb c "E" then
        let (neg, r1) := takeSign r in
        match spanDigits decDigit r1 with
        | ([], _) => (0, s)
        | (ds, rest) =>
            let v := digitsValue 10 ds in
            (if neg then - v else v, rest)
        end
      else (0, s)
  | EmptyString => (0, s)
  end.

(** the longest prefix that is a StrDecimalLiteral, its value and the rest *)
Definition readDecimalLiteral (s : string) : option (number * string) :=
  let (neg, s1) := takeSign s in
  match dropPrefix "Infinity" s1 with
  | Some rest => Some (if neg then NInf else PInf, rest)
  | None =>
      let (ip, r1) := spanDigits decDigit s1 in
      let (fp, r2) :=
        match r1 with
        | String "." r => spanDigits decDigit r
        | _ => ([], r1)
        end in
      match ip, fp with
      | [], [] => None
      | _, _ =>
          let (e, rest) := takeExponent r2 in
          let m := digitsValue 10 (ip ++ fp)%list in
          let v := scale10 (if neg then - m else m) (e - Z.of_nat (List.length fp)) in
          Some (fin v, rest)
      end
  end.

(** [parseFloat(s)] on a string *)
Definition parseFloatString (s : string) : number :=
  match readDecimalLiteral (trimStart s) with
  | Some (v, _) => v
  | None => NaN
  end.

(** [parseInt(s)] on a string, no radix argument: NaN is [None] *)
Definition parseIntString (s : string) : option Z :=
  let (neg, s1) := takeSign (trimStart s) in
  let digits (radix : Z) (dv : ascii -> option Z) (s2 : string) :=
    match spanDigits dv s2 with
    | ([], _) => None
    | (ds, _) => let v := digitsValue radix ds in Some (if neg then - v else v)
    end in
  match s1 with
  | String "0" (String "x" r) | String "0" (String "X" r) => digits 16 hexDigit r
  | _ => digits 10 decDigit s1
  end.

(** a literal [0x..], [0o..], [0b..] that is the whole string *)
Definition readRadixLiteral (s : string) : option number :=
  let whole (radix : Z) (dv : ascii -> option Z) (r : string) :=
    match spanDigits dv r with
    | (d :: ds, EmptyString) => Some (num_of_Z (digitsValue radix (d :: ds)))
    | _ => Some NaN
    end in
  match s with
  | String "0" (String "x" r) | String "0" (String "X" r) => whole 16 hexDigit r
  | String "0" (String "o" r) | String "0" (String "O" r) => whole 8 octDigit r
  | String "0" (String "b" r) | String "0" (String "B" r) => whole 2 binDigit r
  | _ => None
  end.

(** [Number(s)], the conversion [s * 1000] applies to a string *)
Definition stringToNumber (s : string) : number :=
  match trim s with
  | EmptyString => zero
  | t =>
      match readRadixLiteral t with
      | Some v => v
      | None =>
          match readDecimalLiteral t with
          | Some (v, EmptyString) => v
          | _ => NaN
          end
      end
  end.

(** ** Fields of a raw tuple

    An element of a raw tuple is a JSON scalar. *)

Inductive field : Type :=
| FNum (q : Q)
| FStr (s : string)
| FBool (b : bool)
| FNull.

(** ToNumber *)
Definition toNumber (f : field) : number :=
  match f with
  | FNum q => fin q
  | FStr s => stringToNumber s
  | FBool b => if b then num_of_Z 1 else zero
  | FNull => zero
  end.

(** [parseFloat(f)]: the argument is first printed, and a number reads back
    as itself; [null], [true] and [false] print as words *)
Definition parseFloat (f : field) : number :=
  match f with
  | FNum q => fin q
  | FStr s => parseFloatString s
  | _ => NaN
  end.

Fixpoint leadBig (fuel : nat) (n : Z) : Z :=
  match fuel with
  | O => n
  | S f => if Z.ltb n 10 then n else leadBig f (n / 10)
  end.

Fixpoint leadSmall (fuel : nat) (a : Q) : Z :=
  match fuel with
  | O => Qfloor a
  | S f => if Qle_bool 1 a then Qfloor a else leadSmall f (a * 10)%Q
  end.

(** the first significant decimal digit of a positive rational *)
Definition leadingDigit (a : Q) : Z :=
  if Qle_bool 1 a then
    let n := Qfloor a in leadBig (S (Z.to_nat (Z.log2 n))) n
  else leadSmall (S (Pos.size_nat (Qden a))) a.

(** [parseInt(f)]: a number is printed first, in positional notation when
    its magnitude is in [1e-6, 1e21) and with an exponent otherwise, where
    [parseInt] stops after the first digit *)
Definition parseInt (f : field) : option Z :=
  match f with
  | FNum q =>
      let a := Qabs q in
      if Qeq_bool q 0 then Some 0
      else if Qle_bool (1 # 1000000) a && negb (Qle_bool ten21 a) then Some (qtrunc q)
      else Some (if Qle_bool 0 q then leadingDigit a else - leadingDigit a)
  | FStr s => parseIntString s
  | _ => None
  end.

(** ** Date *)

Definition msPerMinute : Z := 60000.
Definition msPerHour : Z := 3600000.
Definition msPerDay : Z := 86400000.
Definition maxTime : Z := 8640000000000000.

(** A [Date] holds a time value in milliseconds, or NaN ([None]). *)
Definition Date : Type := option Z.

Definition inTimeRange (t : Z) : bool := Z.leb (- maxTime) t && Z.leb t maxTime.

(** [new Date(n)]: TimeClip *)
Definition newDate (n : number) : Date :=
  match n with
  | Fin q => if Qle_bool (Qabs q) (inject_Z maxTime) then Some (qtrunc q) else None
  | _ => None
  end.

(** year, month and day of the month of a day number (days since the epoch,
    proleptic Gregorian calendar) *)
Definition civilFromDays (day : Z) : Z * Z * Z :=
  let z := day + 719468 in
  let era := z / 146097 in
  let doe := z - era * 146097 in
  let yoe := (doe - doe / 1460 + doe / 36524 - doe / 146096) / 365 in
  let doy := doe - (365 * yoe + yoe / 4 - yoe / 100) in
  let mp := (5 * doy + 2) / 153 in
  let d := doy - (153 * mp + 2) / 5 + 1 in
  let m := if Z.ltb mp 10 then mp + 3 else mp - 9 in
  let y := yoe + era * 400 + (if Z.leb m 2 then 1 else 0) in
  (y, m, d).

Definition digitChar (d : Z) : ascii := ascii_of_nat (48 + Z.to_nat (d mod 10)).

(** the last [w] decimal digits of [z], before [acc] *)
Fixpoint padDigits (w : nat) (z : Z) (acc : string) : string :=
  match w with
  | O => acc
  | S w' => padDigits w' (z / 10) (String (digitChar z) acc)
  end.

Definition yearString (y : Z) : string :=
  if Z.leb 0 y && Z.leb y 9999 then padDigits 4 y ""
  else String (if Z.ltb y 0 then "-" else "+")%char (padDigits 6 (Z.abs y) "").

(** [YYYY-MM-DD] of a day number *)
Definition dateString (day : Z) : string :=
  let '(y, m, d) := civilFromDays day in
  (yearString y ++ "-" ++ padDigits 2 m "" ++ "-" ++ padDigits 2 d "")%string.

(** [HH:mm:ss.sssZ] of the milliseconds within a day *)
Definition timeString (ms : Z) : string :=
  padDigits 2 (ms / msPerHour) "" ++ ":" ++
  padDigits 2 (ms / msPerMinute mod 60) "" ++ ":" ++
  padDigits 2 (ms / 1000 mod 60) "" ++ "." ++
  padDigits 3 (ms mod 1000) "" ++ "Z".

Definition isoString (t : Z) : string :=
  dateString (t / msPerDay) ++ "T" ++ timeString (t mod msPerDay).

(** [d.toISOString()]: a RangeError ([None]) on an invalid date *)
Definition toISOString (d : Date) : option string := option_map isoString d.

(** [s.split('T')[0]] *)
Fixpoint splitT0 (s : string) : string :=
  match s with
  | String c r => if Ascii.eqb c "T" then EmptyString else String c (splitT0 r)
  | EmptyString => EmptyString
  end.

Local Open Scope list_scope.

(** ** Types of [types/stock.ts] *)

Inductive ChartTimeInterval : Type :=
| I1min | I5min | I15min | I30min | I1hour | I1day.

Definition isDaily (interval : ChartTimeInterval) : bool :=
  match interval with I1day => true | _ => false end.

Definition is1min (interval : ChartTimeInterval) : bool :=
  match interval with I1min => true | _ => false end.

Record ChartDataPoint : Type := mkPoint {
  date : string;
  price : number;
  volume : Z;
  timestamp : Q
}.

(** ** Arrays and the insertion-ordered [Map] *)

(** [arr.sort(cmp)]: the sort is stable; [x] goes after [y] exactly when
    [cmp(x, y) > 0] *)
Fixpoint insertSorted {A : Type} (cmp : A -> A -> Q) (x : A) (l : list A) : list A :=
  match l with
  | [] => [x]
  | y :: r => if Qle_bool (cmp x y) 0 then x :: l else y :: insertSorted cmp x r
  end.

Definition sortWith {A : Type} (cmp : A -> A -> Q) (l : list A) : list A :=
  fold_right (insertSorted cmp) [] l.

(** [(a, b) => a.timestamp - b.timestamp] *)
Definition byTimestamp (a b : ChartDataPoint) : Q := (timestamp a - timestamp b)%Q.

(** [arr.slice(-n)] for a positive [n]: the last [n] elements *)
Definition sliceLast {A : Type} (n : nat) (l : list A) : list A :=
  skipn (List.length l - n) l.

(** [forEach] with a callback that may throw: the state after the last
    element, or [None] at the first exception *)
Fixpoint forEachM {A S : Type} (f : S -> A -> option S) (l : list A) (s : S) : option S :=
  match l with
  | [] => Some s
  | x :: r =>
      match f s x with
      | Some s' => forEachM f r s'
      | None => None
      end
  end.

Module Bucket.

(** the value type of [aggregatedMap] *)
Record t : Type := mk {
  key : string;
  prices : list number;
  volumes : list Z;
  timestamp : Q
}.

End Bucket.

(** A [Map<string, Bucket.t>]: the entries in insertion order. *)
Definition BucketMap : Type := list Bucket.t.

Definition mapHas (k : string) (m : BucketMap) : bool :=
  existsb (fun b => String.eqb (Bucket.key b) k) m.

(** [m.set(k, b)]: a new key goes last, a present one keeps its place *)
Fixpoint mapSet (k : string) (b : Bucket.t) (m : BucketMap) : BucketMap :=
  match m with
  | [] => [b]
  | c :: r => if String.eqb (Bucket.key c) k then b :: r else c :: mapSet k b r
  end.

(** [m.get(k)] followed by in-place updates [f] of the object found *)
Fixpoint mapUpdate (k : string) (f : Bucket.t -> Bucket.t) (m : BucketMap) : BucketMap :=
  match m with
  | [] => []
  | c :: r => if String.eqb (Bucket.key c) k then f c :: r else c :: mapUpdate k f r
  end.

(** ** [PSXService]: the chart path *)

Definition getDataLimitForInterval (interval : ChartTimeInterval) : nat :=
  match interval with
  | I1min => 390
  | I5min => 390
  | I15min => 390
  | I30min => 390
  | I1hour => 390
  | I1day => 30
  end.

Definition getIntervalMinutes (interval : ChartTimeInterval) : Z :=
  match interval with
  | I1min => 1
  | I5min => 5
  | I15min => 15
  | I30min => 30
  | I1hour => 60
  | I1day => 1440
  end.

(** [interval === '1day' ? d.toISOString().split('T')[0] : d.toISOString()] *)
Definition displayDate (interval : ChartTimeInterval) (d : Date) : option string :=
  if isDaily interval then option_map splitT0 (toISOString d) else toISOString d.

(** An element of [jsonData.data]: an array of fields, or anything else. *)
Inductive item : Type :=
| Tuple (fs : list field)
| NotArray.

(** the body of the [forEach] of [parseJSONChartData] *)
Definition parseItem (interval : ChartTimeInterval)
    (chartData : list ChartDataPoint) (it : item) : option (list ChartDataPoint) :=
  match it with
  | Tuple (f0 :: f1 :: f2 :: _) =>
      let price := or_zero (parseFloat f1) in
      let volume := match parseInt f2 with Some v => v | None => 0 end in
      let ms := nmul (toNumber f0) (num_of_Z 1000) in
      let dateObj := newDate ms in
      match displayDate interval dateObj, ms with
      | Some date, Fin t => Some (chartData ++ [mkPoint date price volume t])
      | _, _ => None
      end
  | _ => Some chartData
  end.

(** The parsed response: [status] and [data] when [jsonData] is an object,
    [data] being present only when it is an array. *)
Record JsonData : Type := mkJson {
  status : option field;
  data : option (list item)
}.

(** What [parseJSONChartData] returns: the normalized points, or the random
    series of [generateMockChartData(interval)]. *)
Inductive ChartResult : Type :=
| Normalized (points : list ChartDataPoint)
| MockChartData (interval : ChartTimeInterval).

Definition statusIsOne (st : option field) : bool :=
  match st with
  | Some (FNum q) => Qeq_bool q 1
  | _ => false
  end.

Section HostTimeZone.

(** LocalTZA: local time minus UTC, in milliseconds *)
Variable tza : Z.

(** [d.getMinutes()], NaN as [None] *)
Definition getMinutes (d : Date) : option Z :=
  option_map (fun t => (t + tza) / msPerMinute mod 60) d.

(** [d.setMinutes(m, 0, 0)]: the date after the call *)
Definition setMinutes (d : Date) (m : Z) : Date :=
  match d with
  | Some t =>
      let lt := t + tza in
      let u := lt - lt mod msPerHour + m * msPerMinute - tza in
      if inTimeRange u then Some u else None
  | None => None
  end.

(** [intervalMinutes] is never 0 at a call site; with NaN minutes the date
    stays invalid and [toISOString] throws *)
Definition getIntervalKey (timestamp : Q) (interval : ChartTimeInterval)
    (intervalMinutes : Z) : option string :=
  let date := newDate (Fin timestamp) in
  if isDaily interval then option_map splitT0 (toISOString date)
  else
    match getMinutes date with
    | Some minutes =>
        let roundedMinutes := minutes / intervalMinutes * intervalMinutes in
        toISOString (setMinutes date roundedMinutes)
    | None => None
    end.

(** the updates of [intervalData] in the first [forEach] of
    [aggregateDataByInterval]: two pushes and the earliest timestamp *)
Definition pushPoint (point : ChartDataPoint) (intervalData : Bucket.t) : Bucket.t :=
  Bucket.mk (Bucket.key intervalData)
    (Bucket.prices intervalData ++ [price point])
    (Bucket.volumes intervalData ++ [volume point])
    (if Qlt_bool (timestamp point) (Bucket.timestamp intervalData)
     then timestamp point
     else Bucket.timestamp intervalData).

(** the body of the first [forEach] of [aggregateDataByInterval] *)
Definition groupPoint (interval : ChartTimeInterval) (intervalMinutes : Z)
    (aggregatedMap : BucketMap) (point : ChartDataPoint) : option BucketMap :=
  match getIntervalKey (timestamp point) interval intervalMinutes with
  | Some key =>
      let m :=
        if negb (mapHas key aggregatedMap)
        then mapSet key (Bucket.mk key [] [] (timestamp point)) aggregatedMap
        else aggregatedMap in
      Some (mapUpdate key (pushPoint point) m)
  | None => None
  end.

(** the body of the second [forEach] *)
Definition reduceBucket (interval : ChartTimeInterval)
    (aggregatedData : list ChartDataPoint) (intervalData : Bucket.t)
    : option (list ChartDataPoint) :=
  let avgPrice :=
    ndiv (fold_left nadd (Bucket.prices intervalData) zero)
         (num_of_Z (Z.of_nat (List.length (Bucket.prices intervalData)))) in
  let totalVolume := fold_left Z.add (Bucket.volumes intervalData) 0 in
  let dateObj := newDate (Fin (Bucket.timestamp intervalData)) in
  match displayDate interval dateObj with
  | Some date =>
      Some (aggregatedData ++
              [mkPoint date (toFixed2 avgPrice) totalVolume (Bucket.timestamp intervalData)])
  | None => None
  end.

(** [aggregateDataByInterval] after its early return: the grouping, the
    reduction and the final sort, for a given bucket width *)
Definition aggregateBuckets (chartData : list ChartDataPoint)
    (interval : ChartTimeInterval) (intervalMinutes : Z)
    : option (list ChartDataPoint) :=
  match forEachM (groupPoint interval intervalMinutes) chartData [] with
  | Some aggregatedMap =>
      match forEachM (reduceBucket interval) aggregatedMap [] with
      | Some aggregatedData => Some (sortWith byTimestamp aggregatedData)
      | None => None
      end
  | None => None
  end.

Definition aggregateDataByInterval (chartData : list ChartDataPoint)
    (interval : ChartTimeInterval) : option (list ChartDataPoint) :=
  if is1min interval then Some chartData
  else aggregateBuckets chartData interval (getIntervalMinutes interval).

(** the end of the [try] block of [parseJSONChartData]: the sort, the
    aggregation and the slice of the points parsed *)
Definition normalizePoints (chartData : list ChartDataPoint)
    (interval : ChartTimeInterval) : option (list ChartDataPoint) :=
  let sorted := sortWith byTimestamp chartData in
  match aggregateDataByInterval sorted interval with
  | Some aggregatedData =>
      let dataLimit := getDataLimitForInterval interval in
      Some (sliceLast dataLimit aggregatedData)
  | None => None
  end.

(** the [try] block of [parseJSONChartData] once the payload has the expected
    shape: [None] when an exception reaches the [catch] *)
Definition normalize (data : list item) (interval : ChartTimeInterval)
    : option (list ChartDataPoint) :=
  match forEachM (parseItem interval) data [] with
  | Some chartData => normalizePoints chartData interval
  | None => None
  end.

Definition parseJSONChartData (jsonData : option JsonData) (symbol : string)
    (interval : ChartTimeInterval) : ChartResult :=
  match jsonData with
  | Some j =>
      match statusIsOne (status j), data j with
      | true, Some d =>
          match normalize d interval with
          | Some points => Normalized points
          | None => MockChartData interval
          end
      | _, _ => MockChartData interval
      end
  | None => MockChartData interval
  end.

End HostTimeZone.

(** ** [PSXService]: the snapshot path *)

Module Stock.

Record StockData : Type := mk {
  symbol : string;
  company : string;
  sector : string;
  ldcp : number;
  open : number;
  high : number;
  low : number;
  current : number;
  change : number;
  changePercent : number;
  volume : number;
  isPositive : bool
}.

End Stock.

Record MarketSummary : Type := mkSummary {
  totalStocks : nat;
  gainers : nat;
  losers : nat;
  unchanged : nat;
  totalVolume : number
}.

(** What [parseHTMLData] reads of a [td]: the text of its first [strong]
    descendant and the [data-title] of its first [a] descendant (when there
    is such an element), its own text and its [data-order] attribute. *)
Record Cell : Type := mkCell {
  strong : option string;
  anchor : option (option string);
  textContent : string;
  dataOrder : option string
}.

(** A [tr]: its [td] descendants in document order. *)
Definition Row : Type := list Cell.

(** [s || d] on strings: the empty string is falsy *)
Definition strOr (s d : string) : string :=
  match s with EmptyString => d | _ => s end.

(** [c.getAttribute('data-order') || '0'] *)
Definition dataOrderOrZero (c : Cell) : string :=
  strOr (match dataOrder c with Some s => s | None => EmptyString end) "0".

Definition numberOfInt (r : option Z) : number :=
  match r with Some z => num_of_Z z | None => NaN end.

(** One turn of the [forEach] of [parseHTMLData]. *)
Inductive RowResult : Type :=
| Pushed (stock : Stock.StockData)
| Skipped
| Caught.

(** [cells[10]] is [undefined] in a row of exactly ten cells, and reading its
    attribute is a TypeError that the [catch] of the row logs *)
Definition parseRow (cells : Row) : RowResult :=
  if Nat.leb 10 (List.length cells) then
    match cells with
    | c0 :: _ :: c2 :: c3 :: c4 :: c5 :: c6 :: c7 :: c8 :: c9 :: rest =>
        match strong c0, anchor c0 with
        | Some symbolText, Some dataTitle =>
            let symbol := strOr (trim symbolText) "" in
            let company :=
              strOr (match dataTitle with Some s => s | None => EmptyString end) "" in
            let sector := strOr (trim (textContent c2)) "" in
            let ldcp := parseFloatString (dataOrderOrZero c3) in
            let open := parseFloatString (dataOrderOrZero c4) in
            let high := parseFloatString (dataOrderOrZero c5) in
            let low := parseFloatString (dataOrderOrZero c6) in
            let current := parseFloatString (dataOrderOrZero c7) in
            let change := parseFloatString (dataOrderOrZero c8) in
            let changePercent := parseFloatString (dataOrderOrZero c9) in
            match rest with
            | c10 :: _ =>
                let volume := numberOfInt (parseIntString (dataOrderOrZero c10)) in
                let isPositive := nge change zero in
                Pushed (Stock.mk symbol company sector ldcp open high low current
                          change changePercent volume isPositive)
            | [] => Caught
            end
        | _, _ => Skipped
        end
    | _ => Skipped
    end
  else Skipped.

Definition parseHTMLData (rows : list Row) : list Stock.StockData :=
  fold_left
    (fun stocks row =>
       match parseRow row with
       | Pushed stock => stocks ++ [stock]
       | _ => stocks
       end)
    rows [].

Definition calculateMarketSummary (stocks : list Stock.StockData) : MarketSummary :=
  let gainers := List.length (filter (fun stock => ngt (Stock.change stock) zero) stocks) in
  let losers := List.length (filter (fun stock => nlt (Stock.change stock) zero) stocks) in
  let unchanged :=
    List.length (filter (fun stock => nstricteq (Stock.change stock) zero) stocks) in
  let totalVolume := fold_left (fun sum stock => nadd sum (Stock.volume stock)) stocks zero in
  mkSummary (List.length stocks) gainers losers unchanged totalVolume.

(** ** [PSXService]: fetching, with the fallback to mock data

    A call of [fetch] is a question to the environment: the responses are a
    function of the URL requested, and a run returns the list of the URLs it
    has requested, in order, beside its result. *)

Definition PSX_API_URL : string := "https://dps.psx.com.pk/market-watch".
Definition PSX_TIMESERIES_URL : string := "https://dps.psx.com.pk/timeseries/int/".

Definition CORS_PROXIES : list string :=
  ["https://corsproxy.io/?";
   "https://cors-anywhere.herokuapp.com/";
   "https://api.allorigins.win/raw?url="].

Definition hexChar (d : nat) : ascii :=
  match d with
  | 0 => "0" | 1 => "1" | 2 => "2" | 3 => "3" | 4 => "4" | 5 => "5" | 6 => "6"
  | 7 => "7" | 8 => "8" | 9 => "9" | 10 => "A" | 11 => "B" | 12 => "C"
  | 13 => "D" | 14 => "E" | _ => "F"
  end%nat%char.

(** letters, digits and [- _ . ! ~ * ' ( )] *)
Definition unreserved (c : ascii) : bool :=
  let n := nat_of_ascii c in
  (Nat.leb 65 n && Nat.leb n 90) || (Nat.leb 97 n && Nat.leb n 122) ||
  (Nat.leb 48 n && Nat.leb n 57) ||
  match n with
  | 45 | 95 | 46 | 33 | 126 | 42 | 39 | 40 | 41 => true
  | _ => false
  end%nat.

(** [encodeURIComponent(s)], on the bytes of the UTF-8 form of [s] *)
Fixpoint encodeURIComponent (s : string) : string :=
  match s with
  | String c r =>
      if unreserved c then String c (encodeURIComponent r)
      else
        let n := nat_of_ascii c in
        String "%" (String (hexChar (n / 16)) (String (hexChar (n mod 16))
                      (encodeURIComponent r)))
  | EmptyString => EmptyString
  end.

(** a decimal literal with two decimals, [n / 100] *)
Definition hundredthsOf (n : Z) : number := fin (n # 100).

Definition getMockData : list Stock.StockData :=
  [Stock.mk "DFSM" "Dewan Farooque Spinning Mills Limited" "ALLSHR,KMIALLSHR"
     (hundredthsOf 818) (hundredthsOf 865) (hundredthsOf 869) (hundredthsOf 735)
     (hundredthsOf 750) (hundredthsOf (-68)) (hundredthsOf (-831))
     (num_of_Z 24127221) false;
   Stock.mk "WTL" "Worldcall Telecom Limited" "ALLSHR"
     (hundredthsOf 149) (hundredthsOf 149) (hundredthsOf 152) (hundredthsOf 145)
     (hundredthsOf 147) (hundredthsOf (-2)) (hundredthsOf (-134))
     (num_of_Z 19758898) false;
   Stock.mk "GGL" "Ghani Global Holdings Limited" "ALLSHR,KMIALLSHR"
     (hundredthsOf 1951) (hundredthsOf 1989) (hundredthsOf 2094) (hundredthsOf 1962)
     (hundredthsOf 2064) (hundredthsOf 113) (hundredthsOf 579)
     (num_of_Z 16285249) true;
   Stock.mk "BOP" "The Bank of Punjab" "ALLSHR,KSE100,KSE100PR,PSXDIV20"
     (hundredthsOf 1274) (hundredthsOf 1280) (hundredthsOf 1280) (hundredthsOf 1253)
     (hundredthsOf 1269) (hundredthsOf (-5)) (hundredthsOf (-39))
     (num_of_Z 14937494) false;
   Stock.mk "AKBL" "Askari Bank Limited" "ALLSHR,KSE100,KSE100PR,PSXDIV20"
     (hundredthsOf 6755) (hundredthsOf 6750) (hundredthsOf 6940) (hundredthsOf 6680)
     (hundredthsOf 6816) (hundredthsOf 61) (hundredthsOf 90)
     (num_of_Z 12818237) true].

(** What a request for the market page comes to: [fetch] or [text] rejects
    (no network, the timeout of ten seconds), the status is not ok, or the
    page arrives, given by its [tr] elements. *)
Inductive MarketResponse : Type :=
| MarketRejected
| MarketNotOk
| MarketPage (rows : list Row).

(** the URL that [fetchMarketData] requests through a proxy *)
Definition marketUrl (proxy : string) : string :=
  (proxy ++ encodeURIComponent PSX_API_URL)%string.

(** the [for] loop of [fetchMarketData] over the proxies that remain; the
    [catch] returns the mock data at the last proxy and goes on otherwise *)
Fixpoint fetchMarketDataFrom (fetch : string -> MarketResponse)
    (proxies : list string) : list Stock.StockData * list string :=
  match proxies with
  | [] => (getMockData, [])
  | proxy :: rest =>
      let proxyUrl := marketUrl proxy in
      let caught :=
        match rest with
        | [] => (getMockData, [])
        | _ => fetchMarketDataFrom fetch rest
        end in
      let '(result, requests) :=
        match fetch proxyUrl with
        | MarketPage rows =>
            let parsedData := parseHTMLData rows in
            if Nat.ltb 0 (List.length parsedData) then (parsedData, []) else caught
        | _ => caught
        end in
      (result, proxyUrl :: requests)
  end.

Definition fetchMarketData (fetch : string -> MarketResponse)
    : list Stock.StockData * list string :=
  fetchMarketDataFrom fetch CORS_PROXIES.

Module History.

Record HistoricalDataPoint : Type := mk {
  date : string;
  open : number;
  high : number;
  low : number;
  close : number;
  volume : number
}.

End History.

Module Series.

(** [StockTimeSeriesData]; the chart is what [parseJSONChartData] returns *)
Record StockTimeSeriesData : Type := mk {
  symbol : string;
  company : string;
  sector : string;
  currentPrice : number;
  change : number;
  changePercent : number;
  volume : number;
  marketCap : option number;
  peRatio : option number;
  dividendYield : option number;
  high52Week : option number;
  low52Week : option number;
  historicalData : list History.HistoricalDataPoint;
  chartData : ChartResult
}.

End Series.

(** What a request for a time series comes to: [fetch] rejects, the status
    is not ok, the body is no JSON ([response.json()] rejects), or the parsed
    body arrives ([None] for a body that is not an object). *)
Inductive SeriesResponse : Type :=
| SeriesRejected
| SeriesNotOk
| SeriesNotJson
| SeriesJson (jsonData : option JsonData).

Definition seriesUrl (proxy symbol : string) : string :=
  (proxy ++ encodeURIComponent (PSX_TIMESERIES_URL ++ symbol))%string.

(** the record that [fetchStockTimeSeries] returns around a chart *)
Definition seriesOf (symbol : string) (chart : ChartResult) : Series.StockTimeSeriesData :=
  Series.mk symbol (symbol ++ " Company Limited")%string "ALLSHR"
    zero zero zero zero None None None None None [] chart.

Section Fetching.

Variable tza : Z.

(** the [for] loop of [fetchStockTimeSeries]; its [catch] only logs *)
Fixpoint fetchStockTimeSeriesFrom (fetch : string -> SeriesResponse)
    (symbol : string) (interval : ChartTimeInterval) (proxies : list string)
    : Series.StockTimeSeriesData * list string :=
  match proxies with
  | [] => (seriesOf symbol (MockChartData interval), [])
  | proxy :: rest =>
      let proxyUrl := seriesUrl proxy symbol in
      let '(result, requests) :=
        match fetch proxyUrl with
        | SeriesJson jsonData =>
            let chartData := parseJSONChartData tza jsonData symbol interval in
            (seriesOf symbol chartData, [])
        | _ => fetchStockTimeSeriesFrom fetch symbol interval rest
        end in
      (result, proxyUrl :: requests)
  end.

Definition fetchStockTimeSeries (fetch : string -> SeriesResponse)
    (symbol : string) (interval : ChartTimeInterval)
    : Series.StockTimeSeriesData * list string :=
  fetchStockTimeSeriesFrom fetch symbol interval CORS_PROXIES.

End Fetching.

(** ** [PSXService]: the generated values

    [Math.random()] is a question to the environment as well: [random k] is
    the draw number [k] of a call, a finite number.  [new Date()] is the
    parameter [today], a valid time value. *)

(** [a - b] *)
Definition nsub (a b : number) : number :=
  match a, b with
  | NaN, _ | _, NaN => NaN
  | PInf, PInf | NInf, NInf => NaN
  | PInf, _ | _, NInf => PInf
  | NInf, _ | _, PInf => NInf
  | Fin x, Fin y => fin (x - y)
  end.

(** [Math.max(a, b)] *)
Definition nmax (a b : number) : number :=
  match ncompare a b with
  | None => NaN
  | Some Lt => b
  | Some _ => a
  end.

(** the record that [buildStockTimeSeriesFromMarketData] returns; the five
    draws are taken in the order of the fields and [history] is what
    [generateMockHistoricalData()] returns after them *)
Definition buildStockTimeSeriesFromMarketData (random : nat -> Q)
    (history : list History.HistoricalDataPoint)
    (marketStock : Stock.StockData) (chartData : ChartResult)
    : Series.StockTimeSeriesData :=
  Series.mk
    (Stock.symbol marketStock)
    (Stock.company marketStock)
    (Stock.sector marketStock)
    (Stock.current marketStock)
    (Stock.change marketStock)
    (Stock.changePercent marketStock)
    (Stock.volume marketStock)
    (Some (nmul (fin (random 0%nat)) (num_of_Z 10000000000)))
    (Some (nadd (nmul (fin (random 1%nat)) (num_of_Z 30)) (num_of_Z 5)))
    (Some (nmul (fin (random 2%nat)) (num_of_Z 8)))
    (Some (nmul (Stock.current marketStock)
             (nadd (num_of_Z 1) (nmul (fin (random 3%nat)) (fin (1 # 2))))))
    (Some (nmul (Stock.current marketStock)
             (nsub (num_of_Z 1) (nmul (fin (random 4%nat)) (fin (3 # 10))))))
    history
    chartData.

Section Generated.

Variable tza : Z.

(** [d.getDate()]: the day of the month in local time *)
Definition getDate (d : Date) : option Z :=
  option_map (fun t => snd (civilFromDays ((t + tza) / msPerDay))) d.

(** [d.setDate(dt)]: day [dt] of the month of [d], counted beyond the ends
    of the month, at the same time of day *)
Definition setDate (d : Date) (dt : Z) : Date :=
  match d with
  | Some t =>
      let lt := t + tza in
      let day := lt / msPerDay in
      let firstOfMonth := day - (snd (civilFromDays day) - 1) in
      let u := (firstOfMonth + dt - 1) * msPerDay + lt mod msPerDay - tza in
      if inTimeRange u then Some u else None
  | None => None
  end.

(** [d.setMinutes(m)]: seconds and milliseconds stay *)
Definition setMinutesOnly (d : Date) (m : Z) : Date :=
  match d with
  | Some t =>
      let lt := t + tza in
      let u := lt - lt / msPerMinute mod 60 * msPerMinute + m * msPerMinute - tza in
      if inTimeRange u then Some u else None
  | None => None
  end.

(** the date of the turn [i] of the loop of [generateMockChartData] *)
Definition mockDate (today : Z) (interval : ChartTimeInterval) (i : Z) : Date :=
  let date : Date := Some today in
  if isDaily interval then
    match getDate date with
    | Some dd => setDate date (dd - i)
    | None => None
    end
  else
    match getMinutes tza date with
    | Some mm => setMinutesOnly date (mm - i * getIntervalMinutes interval)
    | None => None
    end.

(** the loop of [generateMockChartData] from [i] down to 0; [k] draws have
    been taken; a RangeError of [toISOString] is [None] *)
Fixpoint mockChartLoop (today : Z) (random : nat -> Q) (interval : ChartTimeInterval)
    (i : nat) (basePrice : number) (k : nat) (data : list ChartDataPoint)
    : option (list ChartDataPoint) :=
  let date := mockDate today interval (Z.of_nat i) in
  let change :=
    nmul (nmul (nsub (fin (random k)) (fin (1 # 2))) (fin (3 # 100))) basePrice in
  let price := nmax (nadd basePrice change) (num_of_Z 1) in
  let volume := Qfloor (random (S k) * 1000000) in
  match displayDate interval date, date with
  | Some dateStr, Some time =>
      let data' := data ++ [mkPoint dateStr (toFixed2 price) volume (inject_Z time)] in
      match i with
      | O => Some data'
      | S i' => mockChartLoop today random interval i' price (S (S k)) data'
      end
  | _, _ => None
  end.

Definition generateMockChartData (today : Z) (random : nat -> Q)
    (interval : ChartTimeInterval) : option (list ChartDataPoint) :=
  let basePrice := nadd (num_of_Z 100) (nmul (fin (random 0%nat)) (num_of_Z 50)) in
  let dataPoints := getDataLimitForInterval interval in
  mockChartLoop today random interval dataPoints basePrice 1 [].

End Generated.

(** ** [StockDetail]: the data of the detail page *)

(** What [fetchStockData] leaves in the state of the component. *)
Inductive DetailState : Type :=
| DetailError (message : string)
| DetailData (stockData : Series.StockTimeSeriesData).

(** [fetchStockData(interval)]: the stock is looked up in the market data,
    the series is fetched and both are combined; the lookup throws for a
    symbol that the market data do not hold *)
Definition fetchStockData (tza : Z) (fetch : string -> SeriesResponse)
    (random : nat -> Q) (history : list History.HistoricalDataPoint)
    (marketData : list Stock.StockData) (symbol : string)
    (interval : ChartTimeInterval) : DetailState * list string :=
  match find (fun stock => String.eqb (Stock.symbol stock) symbol) marketData with
  | Some marketStock =>
      let '(timeSeriesData, requests) := fetchStockTimeSeries tza fetch symbol interval in
      (DetailData
         (buildStockTimeSeriesFromMarketData random history marketStock
            (Series.chartData timeSeriesData)),
       requests)
  | None => (DetailError "Failed to fetch stock details. Please try again.", [])
  end.

(** ** Vocabulary of the statements *)

(** the bucket key of a point *)
Definition keyOf (tza : Z) (interval : ChartTimeInterval) (intervalMinutes : Z)
    (p : ChartDataPoint) : option string :=
  getIntervalKey tza (timestamp p) interval intervalMinutes.

(** the point falls in the bucket of key [k] *)
Definition hasKey (tza : Z) (interval : ChartTimeInterval) (intervalMinutes : Z)
    (k : string) (p : ChartDataPoint) : bool :=
  match keyOf tza interval intervalMinutes p with
  | Some k' => String.eqb k' k
  | None => false
  end.

Definition sumZ (l : list Z) : Z := fold_right Z.add 0 l.

(** the point is what bucketing makes of a bucket of its own: its timestamp
    has a key, its display date is the one of its timestamp and its price is
    rounded to two decimals *)
Definition settled (tza : Z) (interval : ChartTimeInterval) (intervalMinutes : Z)
    (p : ChartDataPoint) : Prop :=
  keyOf tza interval intervalMinutes p <> None /\
  displayDate interval (newDate (Fin (timestamp p))) = Some (date p) /\
  toFixed2 (price p) = price p.

(** order of timestamps *)
Definition tsLe (a b : ChartDataPoint) : Prop := (timestamp a <= timestamp b)%Q.

(** a finite value is held in lowest terms *)
Definition canonical (a : number) : Prop :=
  match a with Fin y => Qred y = y | _ => True end.

(** no letter T in the string *)
Fixpoint noT (s : string) : bool :=
  match s with
  | String c r => negb (Ascii.eqb c "T") && noT r
  | EmptyString => true
  end.

(** [mapUpdate] seen as a map over the entries *)
Definition updateAt (k : string) (f : Bucket.t -> Bucket.t) (b : Bucket.t) : Bucket.t :=
  if String.eqb (Bucket.key b) k then f b else b.

(** what a bucket holds once the points [done] have been grouped: their
    prices and volumes under its key, in order, and a timestamp of that key *)
Definition bucketOk (tza : Z) (interval : ChartTimeInterval) (w : Z)
    (done : list ChartDataPoint) (b : Bucket.t) : Prop :=
  Bucket.prices b = map price (filter (hasKey tza interval w (Bucket.key b)) done) /\
  Bucket.volumes b = map volume (filter (hasKey tza interval w (Bucket.key b)) done) /\
  getIntervalKey tza (Bucket.timestamp b) interval w = Some (Bucket.key b).

(** the invariant of the first [forEach] of [aggregateDataByInterval] *)
Definition groupInv (tza : Z) (interval : ChartTimeInterval) (w : Z)
    (done : list ChartDataPoint) (m : BucketMap) : Prop :=
  NoDup (map Bucket.key m) /\
  Forall (bucketOk tza interval w done) m /\
  Forall (fun p => exists k, keyOf tza interval w p = Some k /\ In k (map Bucket.key m)) done /\
  sumZ (List.concat (map Bucket.volumes m)) = sumZ (map volume done).

(** the chart point that the second [forEach] makes of a bucket *)
Definition reducedFrom (interval : ChartTimeInterval) (b : Bucket.t)
    (o : ChartDataPoint) : Prop :=
  displayDate interval (newDate (Fin (Bucket.timestamp b))) = Some (date o) /\
  price o = toFixed2
              (ndiv (fold_left nadd (Bucket.prices b) zero)
                    (num_of_Z (Z.of_nat (List.length (Bucket.prices b))))) /\
  volume o = fold_left Z.add (Bucket.volumes b) 0 /\
  timestamp o = Bucket.timestamp b.

(** the bucket of a point alone *)
Definition singleBucket (tza : Z) (interval : ChartTimeInterval) (w : Z)
    (p : ChartDataPoint) : Bucket.t :=
  Bucket.mk
    (match keyOf tza interval w p with Some k => k | None => EmptyString end)
    [price p] [volume p] (timestamp p).

(** the first field of a tuple, times 1000, is a time value from which
    [getIntervalKey] can step back to the start of the hour: a finite number
    of magnitude at most [maxTime], an hour or more above [- maxTime] *)
Definition validTimestamp (f0 : field) : bool :=
  match nmul (toNumber f0) (num_of_Z 1000) with
  | Fin q =>
      Qle_bool (Qabs q) (inject_Z maxTime) && Z.leb (- maxTime + msPerHour) (qtrunc q)
  | _ => false
  end.

Definition validItem (it : item) : bool :=
  match it with
  | Tuple (f0 :: _ :: _ :: _) => validTimestamp f0
  | _ => true
  end.

(** the two points of the daily example, parsed: [t] seconds and twelve
    hours later *)
Definition earlyPoint (t : Z) : ChartDataPoint :=
  mkPoint (dateString (t / 86400)) (Fin 10) 100 (inject_Z (t * 1000)).

Definition latePoint (t : Z) : ChartDataPoint :=
  mkPoint (dateString (t / 86400)) (Fin 12) 50 (inject_Z ((t + 43200) * 1000)).

(** an element of the data that the [forEach] of [parseJSONChartData] passes
    over: not an array, or an array of fewer than three fields *)
Definition malformed (it : item) : bool :=
  match it with
  | Tuple (_ :: _ :: _ :: _) => false
  | _ => true
  end.

Definition isFinite (a : number) : bool :=
  match a with Fin _ => true | _ => false end.

(** the timestamp of a bucket is the timestamp of one of the points grouped
    under its key, and the earliest of them *)
Definition earliestOk (tza : Z) (interval : ChartTimeInterval) (w : Z)
    (done : list ChartDataPoint) (b : Bucket.t) : Prop :=
  (exists p, In p done /\ keyOf tza interval w p = Some (Bucket.key b) /\
             timestamp p = Bucket.timestamp b) /\
  (forall p, In p done -> keyOf tza interval w p = Some (Bucket.key b) ->
             (Bucket.timestamp b <= timestamp p)%Q).


(** no two points of the list have the same timestamp *)
Definition distinctTimestamps (l : list ChartDataPoint) : Prop :=
  ForallOrdPairs (fun a b => ~ (timestamp a == timestamp b)%Q) l.

Definition isSome {A : Type} (o : option A) : bool :=
  match o with Some _ => true | None => false end.

(** a row that [parseHTMLData] makes a record of: eleven cells or more, the
    first with a [strong] and an [a] element *)
Definition quoteRow (cells : Row) : bool :=
  Nat.leb 11 (List.length cells) &&
  match cells with
  | c0 :: _ => isSome (strong c0) && isSome (anchor c0)
  | [] => false
  end.

(** a response to a request for the market page that [fetchMarketData] does
    not return from: no page, or a page without a quote row *)
Definition unusable (r : MarketResponse) : bool :=
  match r with
  | MarketPage rows => Nat.eqb (List.length (parseHTMLData rows)) 0
  | _ => true
  end.

Definition isSeriesJson (r : SeriesResponse) : bool :=
  match r with SeriesJson _ => true | _ => false end.

(** the step of the mock series, in milliseconds *)
Definition stepMillis (interval : ChartTimeInterval) : Z :=
  getIntervalMinutes interval * msPerMinute.

(** the timestamps of a series of [n + 1] points that ends at [today] *)
Definition mockTimestamps (today : Z) (interval : ChartTimeInterval) (n : nat) : list Q :=
  map (fun i => inject_Z (today - Z.of_nat i * stepMillis interval)) (rev (seq 0 (S n))).

(** draws of [Math.random()]: from 0 inclusive to 1 exclusive *)
Definition unitDraws (random : nat -> Q) : Prop :=
  forall k, (0 <= random k /\ random k < 1)%Q.

(** the price of a turn of the loop of [generateMockChartData], before it is
    rounded: draw [k] moves [basePrice] by 1.5% at most, not below 1 *)
Definition mockPrice (random : nat -> Q) (basePrice : number) (k : nat) : number :=
  nmax (nadd basePrice
          (nmul (nmul (nsub (fin (random k)) (fin (1 # 2))) (fin (3 # 100))) basePrice))
       (num_of_Z 1).

(** a point as [generateMockChartData] makes them *)
Definition mockPoint (interval : ChartTimeInterval) (p : ChartDataPoint) : Prop :=
  isFinite (price p) = true /\
  nge (price p) (num_of_Z 1) = true /\
  toFixed2 (price p) = price p /\
  0 <= volume p < 1000000 /\
  exists t, timestamp p = inject_Z t /\ displayDate interval (Some t) = Some (date p).

(** ** Sample inputs *)

(** the payload of the passthrough example: 22:13:20 and 22:14:20 UTC on
    14 November 2023 *)
Definition sampleData : list item :=
  [Tuple [FNum 1700000000; FStr "10.5"; FStr "100"];
   Tuple [FNum 1700000060; FStr "10.6"; FStr "200"]].

Definition samplePayload : option JsonData :=
  Some (mkJson (Some (FNum 1)) (Some sampleData)).

Definition point1 : ChartDataPoint :=
  mkPoint "2023-11-14T22:13:20.000Z" (Fin (21 # 2)) 100 1700000000000.

Definition point2 : ChartDataPoint :=
  mkPoint "2023-11-14T22:14:20.000Z" (Fin (53 # 5)) 200 1700000060000.

(** ten seconds after [point1], in the same minute *)
Definition point1b : ChartDataPoint :=
  mkPoint "2023-11-14T22:13:30.000Z" (Fin (53 # 5)) 200 1700000010000.

(** the 5-minute bucket of [point1] and [point2] *)
Definition point12 : ChartDataPoint :=
  mkPoint "2023-11-14T22:13:20.000Z" (Fin (211 # 20)) 300 1700000000000.

(** a tuple whose volume field reads as a negative integer *)
Definition negativeVolumeTuple : item :=
  Tuple [FNum 1700000000; FStr "10.5"; FStr "-5"].

(** a record whose [change] is NaN, as [parseHTMLData] makes one of a cell
    whose [data-order] is not numeric *)
Definition stockWithoutChange : Stock.StockData :=
  Stock.mk "WTL" "Worldcall Telecom Limited" "ALLSHR"
    (Fin (149 # 100)) (Fin (149 # 100)) (Fin (38 # 25)) (Fin (29 # 20))
    (Fin (147 # 100)) NaN NaN (Fin 19758898) false.

Definition stockDown : Stock.StockData :=
  Stock.mk "DFSM" "Dewan Farooque Spinning Mills Limited" "ALLSHR,KMIALLSHR"
    (Fin (409 # 50)) (Fin (173 # 20)) (Fin (869 # 100)) (Fin (147 # 20))
    (Fin (15 # 2)) (Fin (-17 # 25)) (Fin (-831 # 100)) (Fin 24127221) false.

Definition stockUp : Stock.StockData :=
  Stock.mk "GGL" "Ghani Global Holdings Limited" "ALLSHR,KMIALLSHR"
    (Fin (1951 # 100)) (Fin (1989 # 100)) (Fin (1047 # 50)) (Fin (981 # 50))
    (Fin (516 # 25)) (Fin (113 # 100)) (Fin (579 # 100)) (Fin 16285249) true.

(** the cells of a row of the market table, the volume cell left out *)
Definition symbolCell : Cell :=
  mkCell (Some "DFSM") (Some (Some "Dewan Farooque Spinning Mills Limited")) "DFSM" None.

Definition valueCell (s : string) : Cell := mkCell None None s (Some s).

Definition tenCells : Row :=
  [symbolCell; valueCell "TEXTILE"; valueCell "ALLSHR"; valueCell "8.18";
   valueCell "8.65"; valueCell "8.69"; valueCell "7.35"; valueCell "7.50";
   valueCell "-0.68"; valueCell "-8.31"].

(** the same row with its volume cell *)
Definition elevenCells : Row := tenCells ++ [valueCell "24127221"].

(** the second proxy serves the market page, the others reject *)
Definition secondProxyServes (url : string) : MarketResponse :=
  if String.eqb url (marketUrl "https://cors-anywhere.herokuapp.com/")
  then MarketPage [tenCells; elevenCells]
  else MarketRejected.

(** the second proxy answers with [samplePayload] for HBL, the others with
    something that is not JSON *)
Definition secondProxyAnswers (url : string) : SeriesResponse :=
  if String.eqb url (seriesUrl "https://cors-anywhere.herokuapp.com/" "HBL")
  then SeriesJson samplePayload
  else SeriesNotJson.

(** every proxy answers with a JSON object whose status is 0 *)
Definition statusZeroAnswers (url : string) : SeriesResponse :=
  SeriesJson (Some (mkJson (Some (FNum 0)) (Some sampleData))).

Definition sampleDraws (k : nat) : Q := 1 # 4.

(** * Properties *)

(** ** Arrays: sorting and slicing *)

Lemma byTimestamp_le (a b : ChartDataPoint) :
  Qle_bool (byTimestamp a b) 0 = true <-> tsLe a b.
Proof.
  unfold byTimestamp, tsLe. rewrite Qle_bool_iff. split; intro H; lra.
Qed.

Lemma byTimestamp_gt (a b : ChartDataPoint) :
  Qle_bool (byTimestamp a b) 0 = false -> tsLe b a.
Proof.
  intro H. unfold tsLe.
  destruct (Qlt_le_dec (timestamp a) (timestamp b)) as [Hlt | Hle]; [| exact Hle].
  assert (Ht : Qle_bool (byTimestamp a b) 0 = true).
  { apply byTimestamp_le. unfold tsLe. lra. }
  congruence.
Qed.

Lemma tsLe_trans (a b c : ChartDataPoint) : tsLe a b -> tsLe b c -> tsLe a c.
Proof. unfold tsLe. intros. lra. Qed.

Lemma insertSorted_perm {A : Type} (cmp : A -> A -> Q) (x : A) (l : list A) :
  Permutation (insertSorted cmp x l) (x :: l).
Proof.
  induction l as [| y r IH]; simpl.
  - apply Permutation_refl.
  - destruct (Qle_bool (cmp x y) 0).
    + apply Permutation_refl.
    + apply perm_trans with (y :: x :: r).
      * apply perm_skip. exact IH.
      * apply perm_swap.
Qed.

Lemma sortWith_perm {A : Type} (cmp : A -> A -> Q) (l : list A) :
  Permutation (sortWith cmp l) l.
Proof.
  induction l as [| x r IH]; simpl.
  - apply perm_nil.
  - apply perm_trans with (x :: sortWith cmp r).
    + apply insertSorted_perm.
    + apply perm_skip. exact IH.
Qed.

Lemma insertSorted_sorted (x : ChartDataPoint) (l : list ChartDataPoint) :
  StronglySorted tsLe l -> StronglySorted tsLe (insertSorted byTimestamp x l).
Proof.
  induction l as [| y r IH]; simpl; intro Hs.
  - constructor; [constructor | constructor].
  - destruct (Qle_bool (byTimestamp x y) 0) eqn:E.
    + apply byTimestamp_le in E. constructor; [exact Hs |].
      constructor; [exact E |].
      inversion Hs as [| ? ? _ Hall]; subst.
      eapply Forall_impl; [| exact Hall].
      intros z Hz. eapply tsLe_trans; eassumption.
    + apply byTimestamp_gt in E.
      inversion Hs as [| ? ? Hr Hall]; subst.
      constructor; [apply IH; exact Hr |].
      eapply Permutation_Forall.
      * apply Permutation_sym, insertSorted_perm.
      * constructor; assumption.
Qed.

Lemma sortWith_sorted (l : list ChartDataPoint) :
  StronglySorted tsLe (sortWith byTimestamp l).
Proof.
  induction l as [| x r IH]; simpl.
  - constructor.
  - apply insertSorted_sorted, IH.
Qed.

(** a stable sort leaves a sorted array as it is *)
Lemma sortWith_sorted_id (l : list ChartDataPoint) :
  StronglySorted tsLe l -> sortWith byTimestamp l = l.
Proof.
  induction l as [| x r IH]; simpl; intro Hs; [reflexivity |].
  inversion Hs as [| ? ? Hr Hall]; subst.
  rewrite (IH Hr).
  destruct r as [| y r']; simpl; [reflexivity |].
  inversion Hall as [| ? ? Hxy _]; subst.
  apply byTimestamp_le in Hxy. rewrite Hxy. reflexivity.
Qed.

Lemma StronglySorted_skipn {A : Type} (R : A -> A -> Prop) (n : nat) (l : list A) :
  StronglySorted R l -> StronglySorted R (skipn n l).
Proof.
  revert l. induction n as [| n IH]; intros l Hs; simpl; [exact Hs |].
  destruct l as [| x r]; [constructor |].
  inversion Hs; subst. apply IH. assumption.
Qed.

Lemma StronglySorted_adjacent {A : Type} (R : A -> A -> Prop) (l : list A) :
  StronglySorted R l ->
  forall i a b, nth_error l i = Some a -> nth_error l (S i) = Some b -> R a b.
Proof.
  induction 1 as [| x r Hr IH Hall]; intros i a b Ha Hb.
  - destruct i; discriminate.
  - destruct i as [| i]; simpl in Ha, Hb.
    + injection Ha as <-.
      destruct r as [| y r']; [discriminate |]. simpl in Hb. injection Hb as <-.
      inversion Hall; assumption.
    + eapply IH; eassumption.
Qed.

Lemma sliceLast_length {A : Type} (n : nat) (l : list A) :
  (List.length (sliceLast n l) <= n)%nat.
Proof. unfold sliceLast. rewrite length_skipn. lia. Qed.

Lemma sliceLast_all {A : Type} (n : nat) (l : list A) :
  (List.length l <= n)%nat -> sliceLast n l = l.
Proof.
  intro H. unfold sliceLast.
  replace (List.length l - n)%nat with 0%nat by lia. reflexivity.
Qed.

Lemma sliceLast_sorted (n : nat) (l : list ChartDataPoint) :
  StronglySorted tsLe l -> StronglySorted tsLe (sliceLast n l).
Proof. apply StronglySorted_skipn. Qed.

(** ** The shape of a run of [parseJSONChartData] *)

Lemma parseJSONChartData_normalized (tza : Z) (jsonData : option JsonData)
    (symbol : string) (interval : ChartTimeInterval) (out : list ChartDataPoint) :
  parseJSONChartData tza jsonData symbol interval = Normalized out ->
  exists d, normalize tza d interval = Some out.
Proof.
  unfold parseJSONChartData.
  destruct jsonData as [j |]; [| discriminate].
  destruct (statusIsOne (status j)); [| discriminate].
  destruct (data j) as [d |]; [| discriminate].
  destruct (normalize tza d interval) as [points |] eqn:E; [| discriminate].
  intro H. injection H as <-. exists d. exact E.
Qed.

Lemma normalizePoints_inv (tza : Z) (l : list ChartDataPoint)
    (interval : ChartTimeInterval) (out : list ChartDataPoint) :
  normalizePoints tza l interval = Some out ->
  exists aggregatedData,
    aggregateDataByInterval tza (sortWith byTimestamp l) interval
      = Some aggregatedData /\
    out = sliceLast (getDataLimitForInterval interval) aggregatedData.
Proof.
  unfold normalizePoints.
  destruct (aggregateDataByInterval tza (sortWith byTimestamp l) interval)
    as [aggregatedData |] eqn:E; [| discriminate].
  intro H. injection H as <-. exists aggregatedData. auto.
Qed.

Lemma normalize_inv (tza : Z) (d : list item) (interval : ChartTimeInterval)
    (out : list ChartDataPoint) :
  normalize tza d interval = Some out ->
  exists chartData aggregatedData,
    forEachM (parseItem interval) d [] = Some chartData /\
    aggregateDataByInterval tza (sortWith byTimestamp chartData) interval
      = Some aggregatedData /\
    out = sliceLast (getDataLimitForInterval interval) aggregatedData.
Proof.
  unfold normalize.
  destruct (forEachM (parseItem interval) d []) as [chartData |]; [| discriminate].
  intro H. apply normalizePoints_inv in H as (aggregatedData & H1 & H2).
  exists chartData, aggregatedData. auto.
Qed.

Lemma aggregateDataByInterval_sorted (tza : Z) (l : list ChartDataPoint)
    (interval : ChartTimeInterval) (out : list ChartDataPoint) :
  StronglySorted tsLe l ->
  aggregateDataByInterval tza l interval = Some out ->
  StronglySorted tsLe out.
Proof.
  intros Hs. unfold aggregateDataByInterval, aggregateBuckets.
  destruct (is1min interval).
  - intro H. injection H as <-. exact Hs.
  - destruct (forEachM (groupPoint tza interval (getIntervalMinutes interval)) l [])
      as [m |]; [| discriminate].
    destruct (forEachM (reduceBucket interval) m []) as [a |]; [| discriminate].
    intro H. injection H as <-. apply sortWith_sorted.
Qed.

(** C1. Whatever the payload and the granularity, the normalized sequence
    that [parseJSONChartData] returns has at most 390 points at the 1-minute,
    5-minute, 15-minute, 30-minute and 1-hour granularities and at most 30 at
    the 1-day granularity, and that bound is [getDataLimitForInterval]. *)
Theorem normalized_length_cap (tza : Z) (jsonData : option JsonData)
    (symbol : string) (interval : ChartTimeInterval) (out : list ChartDataPoint) :
  parseJSONChartData tza jsonData symbol interval = Normalized out ->
  (List.length out <= getDataLimitForInterval interval)%nat /\
  getDataLimitForInterval interval =
    match interval with I1day => 30%nat | _ => 390%nat end.
Proof.
  intro H. apply parseJSONChartData_normalized in H as [d H].
  apply normalize_inv in H as (chartData & aggregatedData & _ & _ & ->).
  split; [apply sliceLast_length | destruct interval; reflexivity].
Qed.

(** C2. Whatever the payload and the granularity, adjacent points of the
    normalized sequence are in non-decreasing order of timestamp. *)
Theorem normalized_sorted_by_timestamp (tza : Z) (jsonData : option JsonData)
    (symbol : string) (interval : ChartTimeInterval) (out : list ChartDataPoint)
    (i : nat) (p q : ChartDataPoint) :
  parseJSONChartData tza jsonData symbol interval = Normalized out ->
  nth_error out i = Some p ->
  nth_error out (S i) = Some q ->
  (timestamp p <= timestamp q)%Q.
Proof.
  intros H Hp Hq. apply parseJSONChartData_normalized in H as [d H].
  apply normalize_inv in H as (chartData & aggregatedData & _ & Hagg & ->).
  change (tsLe p q).
  eapply StronglySorted_adjacent; [| exact Hp | exact Hq].
  apply sliceLast_sorted.
  eapply aggregateDataByInterval_sorted; [| exact Hagg].
  apply sortWith_sorted.
Qed.

(** ** The bucket map *)

Lemma forEachM_invariant {A S : Type} (f : S -> A -> option S)
    (I : list A -> S -> Prop) (s0 : S) :
  I [] s0 ->
  (forall done x s s', I done s -> f s x = Some s' -> I (done ++ [x]) s') ->
  forall l s', forEachM f l s0 = Some s' -> I l s'.
Proof.
  intros H0 Hstep l s' Hrun.
  assert (G : forall rest done s,
             I done s -> forEachM f rest s = Some s' -> I (done ++ rest) s').
  { induction rest as [| x r IH]; intros done s Hi Hr; simpl in Hr.
    - injection Hr as <-. rewrite app_nil_r. exact Hi.
    - destruct (f s x) as [s1 |] eqn:E; [| discriminate].
      replace (done ++ x :: r) with ((done ++ [x]) ++ r)
        by (rewrite <- app_assoc; reflexivity).
      eapply IH; [| exact Hr]. eapply Hstep; eassumption. }
  apply (G l [] s0 H0 Hrun).
Qed.

Lemma Qlt_bool_irrefl (x : Q) : Qlt_bool x x = false.
Proof.
  unfold Qlt_bool.
  assert (H : Qle_bool x x = true) by (apply Qle_bool_iff, Qle_refl).
  rewrite H. reflexivity.
Qed.

Lemma mapHas_In (k : string) (m : BucketMap) :
  mapHas k m = true <-> In k (map Bucket.key m).
Proof.
  unfold mapHas. rewrite existsb_exists, in_map_iff. split.
  - intros (b & Hb & E). apply String.eqb_eq in E. exists b. auto.
  - intros (b & E & Hb). exists b. split; [exact Hb |]. apply String.eqb_eq. exact E.
Qed.

Lemma mapHas_false (k : string) (m : BucketMap) :
  mapHas k m = false <-> ~ In k (map Bucket.key m).
Proof.
  rewrite <- mapHas_In. destruct (mapHas k m); split; intro H; congruence.
Qed.

Lemma mapSet_fresh (k : string) (b : Bucket.t) (m : BucketMap) :
  mapHas k m = false -> mapSet k b m = m ++ [b].
Proof.
  induction m as [| c r IH]; simpl; intro H; [reflexivity |].
  apply orb_false_iff in H as [Hc Hr]. rewrite Hc, (IH Hr). reflexivity.
Qed.

Lemma mapUpdate_last (k : string) (f : Bucket.t -> Bucket.t) (m : BucketMap)
    (b : Bucket.t) :
  mapHas k m = false -> Bucket.key b = k -> mapUpdate k f (m ++ [b]) = m ++ [f b].
Proof.
  intros H Hb. induction m as [| c r IH]; simpl.
  - rewrite Hb, String.eqb_refl. reflexivity.
  - simpl in H. apply orb_false_iff in H as [Hc Hr]. rewrite Hc, (IH Hr). reflexivity.
Qed.

Lemma updateAt_absent (k : string) (f : Bucket.t -> Bucket.t) (m : BucketMap) :
  ~ In k (map Bucket.key m) -> map (updateAt k f) m = m.
Proof.
  induction m as [| c r IH]; simpl; intro H; [reflexivity |].
  unfold updateAt at 1.
  destruct (String.eqb (Bucket.key c) k) eqn:E.
  - apply String.eqb_eq in E. exfalso. apply H. left. exact E.
  - rewrite IH; [reflexivity |]. intro Hin. apply H. right. exact Hin.
Qed.

Lemma mapUpdate_nodup (k : string) (f : Bucket.t -> Bucket.t) (m : BucketMap) :
  NoDup (map Bucket.key m) -> mapUpdate k f m = map (updateAt k f) m.
Proof.
  induction m as [| c r IH]; simpl; intro H; [reflexivity |].
  inversion H as [| ? ? Hnotin Hr]; subst.
  unfold updateAt at 1.
  destruct (String.eqb (Bucket.key c) k) eqn:E.
  - apply String.eqb_eq in E. subst k.
    rewrite updateAt_absent by exact Hnotin. reflexivity.
  - rewrite (IH Hr). reflexivity.
Qed.

Lemma updateAt_keys (k : string) (p : ChartDataPoint) (m : BucketMap) :
  map Bucket.key (map (updateAt k (pushPoint p)) m) = map Bucket.key m.
Proof.
  rewrite map_map. apply map_ext. intro b. unfold updateAt.
  destruct (String.eqb (Bucket.key b) k); reflexivity.
Qed.

Section Grouping.

Variables (tza : Z) (interval : ChartTimeInterval) (w : Z).

Lemma groupPoint_key (m m' : BucketMap) (p : ChartDataPoint) :
  groupPoint tza interval w m p = Some m' ->
  exists k, keyOf tza interval w p = Some k.
Proof.
  unfold groupPoint, keyOf.
  destruct (getIntervalKey tza (timestamp p) interval w) as [k |]; [| discriminate].
  intros _. exists k. reflexivity.
Qed.

Lemma groupPoint_fresh (m : BucketMap) (p : ChartDataPoint) (k : string) :
  keyOf tza interval w p = Some k ->
  mapHas k m = false ->
  groupPoint tza interval w m p
    = Some (m ++ [Bucket.mk k [price p] [volume p] (timestamp p)]).
Proof.
  intros Hk Hm. unfold groupPoint. unfold keyOf in Hk. rewrite Hk, Hm. simpl.
  rewrite (mapSet_fresh _ _ _ Hm), (mapUpdate_last _ _ _ _ Hm) by reflexivity.
  unfold pushPoint. simpl. rewrite Qlt_bool_irrefl. reflexivity.
Qed.

Lemma groupPoint_present (m : BucketMap) (p : ChartDataPoint) (k : string) :
  keyOf tza interval w p = Some k ->
  mapHas k m = true ->
  NoDup (map Bucket.key m) ->
  groupPoint tza interval w m p = Some (map (updateAt k (pushPoint p)) m).
Proof.
  intros Hk Hm Hnd. unfold groupPoint. unfold keyOf in Hk. rewrite Hk, Hm. simpl.
  rewrite (mapUpdate_nodup _ _ _ Hnd). reflexivity.
Qed.

Lemma hasKey_true (k : string) (p : ChartDataPoint) :
  keyOf tza interval w p = Some k -> hasKey tza interval w k p = true.
Proof. intro H. unfold hasKey. rewrite H. apply String.eqb_refl. Qed.

Lemma hasKey_other (k k' : string) (p : ChartDataPoint) :
  keyOf tza interval w p = Some k -> k <> k' -> hasKey tza interval w k' p = false.
Proof. intros H Hne. unfold hasKey. rewrite H. apply String.eqb_neq. exact Hne. Qed.

Lemma filter_snoc {A : Type} (f : A -> bool) (l : list A) (x : A) :
  filter f (l ++ [x]) = filter f l ++ (if f x then [x] else []).
Proof. rewrite filter_app. reflexivity. Qed.

Lemma bucketOk_other (done : list ChartDataPoint) (b : Bucket.t)
    (x : ChartDataPoint) (k : string) :
  keyOf tza interval w x = Some k ->
  Bucket.key b <> k ->
  bucketOk tza interval w done b -> bucketOk tza interval w (done ++ [x]) b.
Proof.
  intros Hk Hne (Hp & Hv & Ht). unfold bucketOk.
  rewrite filter_snoc, (hasKey_other k (Bucket.key b) x Hk) by congruence.
  rewrite app_nil_r. auto.
Qed.

Lemma bucketOk_push (done : list ChartDataPoint) (b : Bucket.t)
    (x : ChartDataPoint) :
  keyOf tza interval w x = Some (Bucket.key b) ->
  bucketOk tza interval w done b -> bucketOk tza interval w (done ++ [x]) (pushPoint x b).
Proof.
  intros Hk (Hp & Hv & Ht). unfold bucketOk, pushPoint. simpl.
  rewrite filter_snoc, (hasKey_true _ _ Hk), !map_app, <- Hp, <- Hv. simpl.
  repeat split.
  destruct (Qlt_bool (timestamp x) (Bucket.timestamp b)); [exact Hk | exact Ht].
Qed.

Lemma sumZ_app (l1 l2 : list Z) : sumZ (l1 ++ l2) = sumZ l1 + sumZ l2.
Proof. unfold sumZ. induction l1 as [| a r IH]; simpl; [reflexivity | rewrite IH; lia]. Qed.

Lemma sumZ_push (k : string) (x : ChartDataPoint) (m : BucketMap) :
  NoDup (map Bucket.key m) ->
  In k (map Bucket.key m) ->
  sumZ (List.concat (map Bucket.volumes (map (updateAt k (pushPoint x)) m)))
  = sumZ (List.concat (map Bucket.volumes m)) + volume x.
Proof.
  induction m as [| c r IH]; simpl; intros Hnd Hin; [contradiction |].
  inversion Hnd as [| ? ? Hnotin Hr]; subst.
  rewrite !sumZ_app. unfold updateAt at 1.
  destruct (String.eqb (Bucket.key c) k) eqn:E.
  - apply String.eqb_eq in E. subst k.
    rewrite updateAt_absent by exact Hnotin.
    unfold pushPoint. simpl. rewrite sumZ_app. unfold sumZ at 2. simpl. lia.
  - apply String.eqb_neq in E. destruct Hin as [Hc | Hin]; [contradiction |].
    rewrite (IH Hr Hin). lia.
Qed.

Lemma groupInv_step (done : list ChartDataPoint) (x : ChartDataPoint)
    (m m' : BucketMap) :
  groupInv tza interval w done m ->
  groupPoint tza interval w m x = Some m' ->
  groupInv tza interval w (done ++ [x]) m'.
Proof.
  intros (Hnd & Hok & Hcov & Hsum) Hstep.
  destruct (groupPoint_key _ _ _ Hstep) as [k Hk].
  destruct (mapHas k m) eqn:Hm.
  - rewrite (groupPoint_present m x k Hk Hm Hnd) in Hstep. injection Hstep as <-.
    assert (Hin : In k (map Bucket.key m)) by (apply mapHas_In; exact Hm).
    repeat split.
    + rewrite updateAt_keys. exact Hnd.
    + apply Forall_map. eapply Forall_impl; [| exact Hok].
      intros b Hb. unfold updateAt.
      destruct (String.eqb (Bucket.key b) k) eqn:E.
      * apply String.eqb_eq in E. subst k. apply bucketOk_push; assumption.
      * apply String.eqb_neq in E. eapply bucketOk_other; eassumption.
    + apply Forall_app. split.
      * eapply Forall_impl; [| exact Hcov].
        intros p (k' & Hk' & Hin'). exists k'. rewrite updateAt_keys. auto.
      * constructor; [| constructor]. exists k. rewrite updateAt_keys. auto.
    + rewrite (sumZ_push k x m Hnd Hin), map_app, sumZ_app, Hsum.
      unfold sumZ at 3. simpl. lia.
  - rewrite (groupPoint_fresh m x k Hk Hm) in Hstep. injection Hstep as <-.
    assert (Hnotin : ~ In k (map Bucket.key m)) by (apply mapHas_false; exact Hm).
    repeat split.
    + rewrite map_app. simpl.
      apply NoDup_app; [exact Hnd | constructor; [intros [] | constructor] |].
      intros a Ha [<- | []]. exact (Hnotin Ha).
    + apply Forall_app. split.
      * apply Forall_forall. intros b Hb.
        eapply bucketOk_other; [exact Hk | | apply (proj1 (Forall_forall _ _) Hok b Hb)].
        intro E. apply Hnotin. rewrite <- E. apply in_map. exact Hb.
      * constructor; [| constructor]. unfold bucketOk. simpl.
        rewrite filter_snoc, (hasKey_true _ _ Hk).
        assert (Hnone : filter (hasKey tza interval w k) done = []).
        { clear - Hcov Hnotin. induction done as [| p r IH]; simpl; [reflexivity |].
          inversion Hcov as [| ? ? (k' & Hk' & Hin') Hr]; subst.
          rewrite (hasKey_other k' k p Hk') by (intro E; subst; contradiction).
          apply IH. exact Hr. }
        rewrite Hnone. simpl. repeat split. exact Hk.
    + apply Forall_app. split.
      * eapply Forall_impl; [| exact Hcov].
        intros p (k' & Hk' & Hin'). exists k'. split; [exact Hk' |].
        rewrite map_app. apply in_or_app. left. exact Hin'.
      * constructor; [| constructor]. exists k. split; [exact Hk |].
        rewrite map_app. apply in_or_app. right. left. reflexivity.
    + rewrite !map_app, concat_app, !sumZ_app, Hsum. simpl. reflexivity.
Qed.

Lemma groupInv_run (l : list ChartDataPoint) (m : BucketMap) :
  forEachM (groupPoint tza interval w) l [] = Some m -> groupInv tza interval w l m.
Proof.
  apply (forEachM_invariant (groupPoint tza interval w) (groupInv tza interval w) []).
  - repeat split; constructor.
  - intros done x s s'. apply groupInv_step.
Qed.

End Grouping.

(** ** The reduction of the buckets *)

Lemma reduceBucket_run (interval : ChartTimeInterval) (m : BucketMap)
    (acc a : list ChartDataPoint) :
  forEachM (reduceBucket interval) m acc = Some a ->
  exists a', a = acc ++ a' /\ Forall2 (reducedFrom interval) m a'.
Proof.
  revert acc. induction m as [| b r IH]; intros acc H; simpl in H.
  - injection H as <-. exists []. rewrite app_nil_r. split; [reflexivity | constructor].
  - unfold reduceBucket at 1 in H.
    destruct (displayDate interval (newDate (Fin (Bucket.timestamp b)))) as [d |] eqn:E;
      [| discriminate].
    apply IH in H as (a' & -> & Hall).
    eexists (_ :: a'). split.
    + rewrite <- app_assoc. reflexivity.
    + constructor; [| exact Hall]. repeat split; simpl; auto.
Qed.

Lemma aggregateBuckets_inv (tza : Z) (l : list ChartDataPoint)
    (interval : ChartTimeInterval) (w : Z) (out : list ChartDataPoint) :
  aggregateBuckets tza l interval w = Some out ->
  exists m a,
    groupInv tza interval w l m /\
    Forall2 (reducedFrom interval) m a /\
    out = sortWith byTimestamp a.
Proof.
  unfold aggregateBuckets.
  destruct (forEachM (groupPoint tza interval w) l []) as [m |] eqn:Hg; [| discriminate].
  destruct (forEachM (reduceBucket interval) m []) as [a |] eqn:Hr; [| discriminate].
  intro H. injection H as <-.
  apply groupInv_run in Hg. apply reduceBucket_run in Hr as (a' & -> & Hall).
  exists m, a'. auto.
Qed.

Lemma Forall2_In_r {A B : Type} (R : A -> B -> Prop) (l1 : list A) (l2 : list B) (y : B) :
  Forall2 R l1 l2 -> In y l2 -> exists x, In x l1 /\ R x y.
Proof.
  induction 1 as [| a b r1 r2 Hab _ IH]; intro Hin; [contradiction |].
  destruct Hin as [<- | Hin].
  - exists a. split; [left; reflexivity | exact Hab].
  - destruct (IH Hin) as (x & Hx & Hr). exists x. split; [right; exact Hx | exact Hr].
Qed.


Lemma Forall2_map_eq {A B C : Type} (R : A -> B -> Prop) (f : A -> C) (g : B -> C)
    (l1 : list A) (l2 : list B) :
  Forall2 R l1 l2 ->
  (forall x y, In x l1 -> R x y -> f x = g y) ->
  map f l1 = map g l2.
Proof.
  induction 1 as [| a b r1 r2 Hab _ IH]; intro H; simpl; [reflexivity |].
  f_equal.
  - apply H; [left; reflexivity | exact Hab].
  - apply IH. intros x y Hx. apply H. right. exact Hx.
Qed.




Lemma NoDup_map_Some {A : Type} (l : list A) : NoDup l -> NoDup (map Some l).
Proof.
  induction 1 as [| x r Hnotin _ IH]; simpl; constructor; [| exact IH].
  rewrite in_map_iff. intros (y & E & Hy). injection E as ->. contradiction.
Qed.

(** the key of a reduced point is the key of its bucket *)
Lemma reduced_key (tza : Z) (interval : ChartTimeInterval) (w : Z)
    (done : list ChartDataPoint) (b : Bucket.t) (o : ChartDataPoint) :
  bucketOk tza interval w done b ->
  reducedFrom interval b o ->
  keyOf tza interval w o = Some (Bucket.key b).
Proof.
  intros (_ & _ & Hk) (_ & _ & _ & Ht). unfold keyOf. rewrite Ht. exact Hk.
Qed.

Lemma reduced_keys (tza : Z) (interval : ChartTimeInterval) (w : Z)
    (done : list ChartDataPoint) (m : BucketMap) (a : list ChartDataPoint) :
  Forall (bucketOk tza interval w done) m ->
  Forall2 (reducedFrom interval) m a ->
  map (keyOf tza interval w) a = map Some (map Bucket.key m).
Proof.
  intros Hok Hall. rewrite map_map. symmetry.
  eapply Forall2_map_eq; [exact Hall |].
  intros b o Hb Hr. symmetry. eapply reduced_key; [| exact Hr].
  apply (proj1 (Forall_forall _ _) Hok b Hb).
Qed.


(** ** Rounding to two decimals *)

Lemma Qred_idem (q : Q) : Qred (Qred q) = Qred q.
Proof. apply Qred_complete, Qred_correct. Qed.

Lemma fin_canonical (q : Q) : canonical (fin q).
Proof. apply Qred_idem. Qed.

Lemma fin_of_canonical (y : Q) : Qred y = y -> fin y = Fin y.
Proof. intro H. unfold fin. rewrite H. reflexivity. Qed.

Lemma fin_eq (x y : Q) : (x == y)%Q -> fin x = fin y.
Proof. intro H. unfold fin. f_equal. apply Qred_complete. exact H. Qed.

Lemma toFixed2_fin_canonical (a : number) :
  match a with Fin _ => canonical (toFixed2 a) | _ => True end.
Proof.
  destruct a as [| | | x]; simpl; auto.
  destruct (Qle_bool ten21 (Qabs x)); [apply fin_canonical |].
  destruct (Qle_bool 0 x); apply fin_canonical.
Qed.

Lemma Qfloor_half (n : Z) (q : Q) : (q == inject_Z n + (1 # 2))%Q -> Qfloor q = n.
Proof.
  intro H. rewrite (Qfloor_comp _ _ H).
  unfold Qfloor, inject_Z, Qplus. simpl.
  symmetry. apply Z.div_unique with (r := 1); lia.
Qed.

Lemma Qfloor_half_nonneg (x : Q) : 0 <= Qfloor (Qabs x * 100 + (1 # 2))%Q.
Proof.
  assert (H : (0 <= Qabs x * 100 + (1 # 2))%Q).
  { pose proof (Qabs_nonneg x). nra. }
  apply Qfloor_resp_le in H. exact H.
Qed.

Lemma hundredths (n : Z) : ((n # 100) * 100 == inject_Z n)%Q.
Proof. unfold Qeq, Qmult, inject_Z. simpl. lia. Qed.

(** a multiple of 1/100 is rounded to itself *)
Lemma toFixed2_hundredths (n : Z) : toFixed2 (fin (n # 100)) = fin (n # 100).
Proof.
  unfold fin at 1. cbn [toFixed2].
  pose proof (Qred_correct (n # 100)) as Hy.
  destruct (Qle_bool ten21 (Qabs (Qred (n # 100)))).
  - unfold fin. rewrite Qred_idem. reflexivity.
  - destruct (Qle_bool 0 (Qred (n # 100))) eqn:Hs.
    + apply Qle_bool_iff in Hs. rewrite Hy in Hs.
      apply fin_eq.
      assert (Hn : 0 <= n).
      { unfold Qle in Hs. simpl in Hs. lia. }
      rewrite (Qfloor_half n); [reflexivity |].
      rewrite Hy, Qabs_pos by exact Hs. rewrite hundredths. reflexivity.
    + assert (Hneg : (Qred (n # 100) < 0)%Q).
      { destruct (Qlt_le_dec (Qred (n # 100)) 0) as [Hlt | Hle]; [exact Hlt |].
        apply Qle_bool_iff in Hle. congruence. }
      rewrite Hy in Hneg.
      assert (Hn : n < 0).
      { unfold Qlt in Hneg. simpl in Hneg. lia. }
      apply fin_eq.
      rewrite (Qfloor_half (- n)).
      * rewrite Z.opp_involutive. reflexivity.
      * rewrite Hy, Qabs_neg by (apply Qlt_le_weak; exact Hneg).
        assert (E : (- (n # 100) == (- n # 100))%Q) by reflexivity.
        rewrite E, hundredths. reflexivity.
Qed.

Lemma toFixed2_idempotent (a : number) : toFixed2 (toFixed2 a) = toFixed2 a.
Proof.
  destruct a as [| | | x]; try reflexivity.
  cbn [toFixed2].
  destruct (Qle_bool ten21 (Qabs x)) eqn:Hbig.
  - unfold fin at 1. cbn [toFixed2].
    pose proof (Qred_correct x) as Hy.
    assert (Hbig' : Qle_bool ten21 (Qabs (Qred x)) = true).
    { apply Qle_bool_iff. apply Qle_bool_iff in Hbig. rewrite Hy. exact Hbig. }
    rewrite Hbig'. unfold fin. rewrite Qred_idem. reflexivity.
  - destruct (Qle_bool 0 x); apply toFixed2_hundredths.
Qed.

(** the mean of a bucket of one price *)
Lemma mean_singleton (p : number) :
  canonical p -> ndiv (nadd zero p) (num_of_Z 1) = p.
Proof.
  destruct p as [| | | y]; try reflexivity. cbn [canonical]. intro Hc.
  assert (E : fin (0 + y) = Fin y).
  { rewrite <- (fin_of_canonical y Hc). apply fin_eq. ring. }
  unfold zero. cbn [nadd]. rewrite E. cbn [ndiv num_of_Z].
  change (qsign (inject_Z 1)) with Gt. cbv iota.
  rewrite <- (fin_of_canonical y Hc). apply fin_eq. unfold inject_Z. field.
Qed.

(** a price that [toFixed2] leaves alone survives a bucket of its own *)
Lemma rounded_price_stable (p : number) :
  toFixed2 p = p ->
  toFixed2 (ndiv (fold_left nadd [p] zero) (num_of_Z (Z.of_nat (List.length [p])))) = p.
Proof.
  intro H. change (toFixed2 (ndiv (nadd zero p) (num_of_Z 1)) = p).
  rewrite mean_singleton; [exact H |].
  rewrite <- H. pose proof (toFixed2_fin_canonical p) as Hc.
  destruct p; simpl; auto.
Qed.

(** ** Sequences that bucketing leaves alone *)

Section Fixed.

Variables (tza : Z) (interval : ChartTimeInterval) (w : Z).

Lemma group_distinct (l : list ChartDataPoint) (acc : BucketMap) :
  Forall (fun p => exists k, keyOf tza interval w p = Some k /\
                             ~ In k (map Bucket.key acc)) l ->
  NoDup (map (keyOf tza interval w) l) ->
  forEachM (groupPoint tza interval w) l acc
  = Some (acc ++ map (singleBucket tza interval w) l).
Proof.
  revert acc. induction l as [| x r IH]; intros acc Hall Hnd; simpl.
  - rewrite app_nil_r. reflexivity.
  - inversion Hall as [| ? ? (k & Hk & Hnotin) Hr]; subst.
    inversion Hnd as [| ? ? Hx Hnd']; subst.
    rewrite (groupPoint_fresh tza interval w acc x k Hk)
      by (apply mapHas_false; exact Hnotin).
    rewrite IH; [| | exact Hnd'].
    + rewrite <- app_assoc. simpl. unfold singleBucket at 2. rewrite Hk. reflexivity.
    + apply Forall_forall. intros p Hp.
      destruct (proj1 (Forall_forall _ _) Hr p Hp) as (k' & Hk' & Hnotin').
      exists k'. split; [exact Hk' |].
      rewrite map_app. simpl. intro Hin. apply in_app_or in Hin as [Hin | [E | []]].
      * exact (Hnotin' Hin).
      * apply Hx. rewrite Hk, E, <- Hk'. apply in_map. exact Hp.
Qed.

Lemma reduce_singles (l acc : list ChartDataPoint) :
  Forall (settled tza interval w) l ->
  forEachM (reduceBucket interval) (map (singleBucket tza interval w) l) acc = Some (acc ++ l).
Proof.
  revert acc. induction l as [| x r IH]; intros acc Hall; simpl.
  - rewrite app_nil_r. reflexivity.
  - inversion Hall as [| ? ? (_ & Hd & Hp) Hr]; subst.
    unfold reduceBucket at 1. unfold singleBucket at 1 2 3 4.
    cbn [Bucket.prices Bucket.volumes Bucket.timestamp].
    rewrite Hd, (rounded_price_stable _ Hp).
    rewrite (IH _ Hr). rewrite <- app_assoc. simpl.
    destruct x as [d pr v t]. simpl. reflexivity.
Qed.

(** a sorted sequence of settled points in pairwise distinct buckets is a
    fixed point of the bucketing *)
Lemma aggregateBuckets_fixed (l : list ChartDataPoint) :
  StronglySorted tsLe l ->
  NoDup (map (keyOf tza interval w) l) ->
  Forall (settled tza interval w) l ->
  aggregateBuckets tza l interval w = Some l.
Proof.
  intros Hs Hnd Hall. unfold aggregateBuckets.
  rewrite group_distinct; [| | exact Hnd].
  - simpl. rewrite (reduce_singles l [] Hall). simpl.
    rewrite (sortWith_sorted_id l Hs). reflexivity.
  - eapply Forall_impl; [| exact Hall].
    intros p (Hk & _). destruct (keyOf tza interval w p) as [k |] eqn:E; [| congruence].
    exists k. split; [reflexivity | intros []].
Qed.

(** every point that the bucketing returns is settled *)
Lemma aggregateBuckets_settled (l out : list ChartDataPoint) :
  aggregateBuckets tza l interval w = Some out ->
  Forall (settled tza interval w) out /\ NoDup (map (keyOf tza interval w) out).
Proof.
  intro H. apply aggregateBuckets_inv in H as (m & a & Hinv & Hall & ->).
  destruct Hinv as (Hnd & Hok & _ & _).
  pose proof (sortWith_perm byTimestamp a) as Hperm.
  split.
  - eapply Permutation_Forall; [apply Permutation_sym; exact Hperm |].
    apply Forall_forall. intros o Ho.
    destruct (Forall2_In_r _ _ _ _ Hall Ho) as (b & Hb & Hr).
    pose proof (proj1 (Forall_forall _ _) Hok b Hb) as Hbo.
    pose proof (reduced_key tza interval w l b o Hbo Hr) as Hk.
    destruct Hr as (Hd & Hp & _ & Ht).
    repeat split.
    + rewrite Hk. discriminate.
    + rewrite Ht. exact Hd.
    + rewrite Hp. apply toFixed2_idempotent.
  - eapply Permutation_NoDup.
    + apply Permutation_map. apply Permutation_sym. exact Hperm.
    + rewrite (reduced_keys tza interval w l m a Hok Hall).
      apply NoDup_map_Some. exact Hnd.
Qed.

End Fixed.

Lemma Forall_skipn_of {A : Type} (P : A -> Prop) (n : nat) (l : list A) :
  Forall P l -> Forall P (skipn n l).
Proof.
  intro H. rewrite <- (firstn_skipn n l) in H. apply Forall_app in H. tauto.
Qed.

Lemma NoDup_skipn {A : Type} (n : nat) (l : list A) : NoDup l -> NoDup (skipn n l).
Proof.
  intro H. rewrite <- (firstn_skipn n l) in H.
  apply NoDup_app_remove_l in H. exact H.
Qed.

(** C3, as the code has it.  The 1-minute passthrough returns the points
    unchanged; it agrees with the general bucketing at a width of one minute
    on a sequence that is in timestamp order, has no two points in the same
    minute, and whose points have a valid date, the ISO string of their
    timestamp as display date and a price rounded to two decimals. *)
Theorem passthrough_agrees_on_settled_points (tza : Z) (l : list ChartDataPoint) :
  StronglySorted tsLe l ->
  NoDup (map (keyOf tza I1min 1) l) ->
  Forall (fun p =>
            keyOf tza I1min 1 p <> None /\
            toISOString (newDate (Fin (timestamp p))) = Some (date p) /\
            toFixed2 (price p) = price p) l ->
  aggregateDataByInterval tza l I1min = aggregateBuckets tza l I1min 1.
Proof.
  intros Hs Hnd Hall. symmetry. apply aggregateBuckets_fixed; assumption.
Qed.

(** C4. At every granularity the sort, bucket and trim pipeline is
    idempotent: run on a sequence it has returned, it returns that sequence,
    point for point. *)
Theorem normalizePoints_idempotent (tza : Z) (interval : ChartTimeInterval)
    (l out : list ChartDataPoint) :
  normalizePoints tza l interval = Some out ->
  normalizePoints tza out interval = Some out.
Proof.
  intro H. apply normalizePoints_inv in H as (a & Hagg & ->).
  set (n := getDataLimitForInterval interval).
  assert (Hs : StronglySorted tsLe (sliceLast n a)).
  { apply sliceLast_sorted. eapply aggregateDataByInterval_sorted; [| exact Hagg].
    apply sortWith_sorted. }
  unfold normalizePoints. rewrite (sortWith_sorted_id _ Hs).
  assert (Hfix : aggregateDataByInterval tza (sliceLast n a) interval
                 = Some (sliceLast n a)).
  { unfold aggregateDataByInterval in *. destruct (is1min interval); [reflexivity |].
    apply aggregateBuckets_settled in Hagg as [Hall Hnd].
    apply aggregateBuckets_fixed; [exact Hs | |].
    - unfold sliceLast. rewrite <- skipn_map. apply NoDup_skipn. exact Hnd.
    - apply Forall_skipn_of. exact Hall. }
  rewrite Hfix. fold n. rewrite sliceLast_all; [reflexivity |].
  apply sliceLast_length.
Qed.

(** ** When the normalizer returns *)

Lemma forEachM_total {A S : Type} (f : S -> A -> option S) (l : list A) (s : S) :
  (forall s0 x, In x l -> exists s1, f s0 x = Some s1) ->
  exists s', forEachM f l s = Some s'.
Proof.
  revert s. induction l as [| x r IH]; intros s H; simpl.
  - exists s. reflexivity.
  - destruct (H s x (or_introl eq_refl)) as [s1 ->].
    apply IH. intros s0 y Hy. apply H. right. exact Hy.
Qed.

(** a timestamp that has a key has a display date *)
Lemma key_gives_displayDate (tza : Z) (ts : Q) (interval : ChartTimeInterval)
    (w : Z) (k : string) :
  getIntervalKey tza ts interval w = Some k ->
  exists d, displayDate interval (newDate (Fin ts)) = Some d.
Proof.
  unfold getIntervalKey, displayDate.
  destruct (newDate (Fin ts)) as [z |]; cbn [toISOString option_map getMinutes].
  - intros _. destruct (isDaily interval); eexists; reflexivity.
  - destruct (isDaily interval); discriminate.
Qed.

(** the aggregation returns as soon as every timestamp has a key *)
Lemma aggregateDataByInterval_returns (tza : Z) (l : list ChartDataPoint)
    (interval : ChartTimeInterval) :
  Forall (fun p => keyOf tza interval (getIntervalMinutes interval) p <> None) l ->
  exists out, aggregateDataByInterval tza l interval = Some out.
Proof.
  intro Hall. unfold aggregateDataByInterval.
  destruct (is1min interval); [exists l; reflexivity |].
  set (w := getIntervalMinutes interval) in *. unfold aggregateBuckets.
  destruct (forEachM_total (groupPoint tza interval w) l []) as [m Hm].
  { intros m0 p Hp. pose proof (proj1 (Forall_forall _ _) Hall p Hp) as Hk.
    unfold keyOf in Hk. unfold groupPoint.
    destruct (getIntervalKey tza (timestamp p) interval w); [| congruence].
    eexists. reflexivity. }
  rewrite Hm. apply groupInv_run in Hm as (_ & Hok & _ & _).
  destruct (forEachM_total (reduceBucket interval) m []) as [a Ha].
  { intros a0 b Hb. destruct (proj1 (Forall_forall _ _) Hok b Hb) as (_ & _ & Hk).
    destruct (key_gives_displayDate _ _ _ _ _ Hk) as [d Hd].
    unfold reduceBucket. rewrite Hd. eexists. reflexivity. }
  rewrite Ha. eexists. reflexivity.
Qed.

Lemma qtrunc_bounds (q : Q) (M : Z) :
  (Qabs q <= inject_Z M)%Q -> - M <= qtrunc q <= M.
Proof.
  intro H. apply Qabs_Qle_condition in H as [Hlo Hhi]. unfold qtrunc.
  destruct (Qle_bool 0 q) eqn:E.
  - apply Qle_bool_iff in E.
    pose proof (Qfloor_resp_le _ _ E) as H0. pose proof (Qfloor_resp_le _ _ Hhi) as H1.
    rewrite Qfloor_Z in H1. change (0 <= Qfloor q) in H0. lia.
  - assert (Hneg : (q <= 0)%Q).
    { destruct (Qlt_le_dec q 0) as [Hlt | Hle]; [apply Qlt_le_weak; exact Hlt |].
      apply Qle_bool_iff in Hle. congruence. }
    pose proof (Qceiling_resp_le _ _ Hneg) as H0.
    rewrite <- inject_Z_opp in Hlo.
    pose proof (Qceiling_resp_le _ _ Hlo) as H1.
    rewrite Qceiling_Z in H1. change (Qceiling q <= 0) in H0. lia.
Qed.

(** stepping back to a multiple of [w] minutes stays within the hour *)
Lemma rounded_minutes_in_range (tza t w : Z) :
  0 < w ->
  - maxTime + msPerHour <= t <= maxTime ->
  let lt := t + tza in
  let minutes := lt / msPerMinute mod 60 in
  inTimeRange (lt - lt mod msPerHour + minutes / w * w * msPerMinute - tza) = true.
Proof.
  intros Hw Ht lt minutes.
  assert (Hm : 0 <= minutes < 60) by (apply Z.mod_pos_bound; lia).
  assert (Hr : 0 <= minutes / w * w <= minutes).
  { split.
    - apply Z.mul_nonneg_nonneg; [apply Z.div_pos |]; lia.
    - rewrite Z.mul_comm. apply Z.mul_div_le. exact Hw. }
  revert Hr. generalize (minutes / w * w). intros rm Hr.
  unfold inTimeRange, minutes, msPerHour, msPerMinute, maxTime in *.
  apply andb_true_iff. rewrite !Z.leb_le.
  Z.div_mod_to_equations. lia.
Qed.

Lemma getIntervalKey_returns (tza : Z) (q : Q) (interval : ChartTimeInterval) :
  Qle_bool (Qabs q) (inject_Z maxTime) = true ->
  - maxTime + msPerHour <= qtrunc q ->
  getIntervalKey tza q interval (getIntervalMinutes interval) <> None.
Proof.
  intros Hr Hlo. unfold getIntervalKey, newDate. rewrite Hr.
  cbn [toISOString option_map getMinutes].
  destruct (isDaily interval); [discriminate |].
  unfold setMinutes.
  rewrite rounded_minutes_in_range; [discriminate | destruct interval; reflexivity |].
  apply Qle_bool_iff in Hr. pose proof (qtrunc_bounds q maxTime Hr). lia.
Qed.

Lemma parseItem_returns (interval : ChartTimeInterval) (acc : list ChartDataPoint)
    (it : item) :
  validItem it = true ->
  exists acc',
    parseItem interval acc it = Some acc' /\
    (acc' = acc \/
     exists p, acc' = acc ++ [p] /\
               Qle_bool (Qabs (timestamp p)) (inject_Z maxTime) = true /\
               - maxTime + msPerHour <= qtrunc (timestamp p)).
Proof.
  destruct it as [fs |]; [| intros _; exists acc; auto].
  destruct fs as [| f0 [| f1 [| f2 r]]]; try (intros _; exists acc; solve [auto]).
  cbn [validItem]. unfold validTimestamp, parseItem.
  destruct (nmul (toNumber f0) (num_of_Z 1000)) as [| | | q]; try discriminate.
  intro H. apply andb_true_iff in H as [Hr Hlo]. apply Z.leb_le in Hlo.
  unfold displayDate, newDate. rewrite Hr. cbn [toISOString option_map].
  destruct (isDaily interval); eexists; (split; [reflexivity |]);
    right; eexists; (split; [reflexivity |]); cbn [timestamp]; auto.
Qed.

(** the normalizer returns as soon as the timestamps are valid: no exception
    reaches the [catch] *)
Lemma normalize_returns (tza : Z) (d : list item) (interval : ChartTimeInterval) :
  forallb validItem d = true ->
  exists out, normalize tza d interval = Some out.
Proof.
  intro Hd. unfold normalize.
  assert (G : forall rest acc,
            forallb validItem rest = true ->
            Forall (fun p => keyOf tza interval (getIntervalMinutes interval) p <> None) acc ->
            exists chartData,
              forEachM (parseItem interval) rest acc = Some chartData /\
              Forall (fun p => keyOf tza interval (getIntervalMinutes interval) p <> None)
                     chartData).
  { induction rest as [| it r IH]; intros acc Hv Hacc; simpl.
    - exists acc. auto.
    - simpl in Hv. apply andb_true_iff in Hv as [Hit Hr].
      destruct (parseItem_returns interval acc it Hit) as (acc' & -> & Hacc').
      apply IH; [exact Hr |].
      destruct Hacc' as [-> | (p & -> & Hp1 & Hp2)]; [exact Hacc |].
      apply Forall_app. split; [exact Hacc |].
      constructor; [| constructor]. unfold keyOf.
      apply getIntervalKey_returns; assumption. }
  destruct (G d [] Hd (Forall_nil _)) as (chartData & -> & Hall).
  unfold normalizePoints.
  destruct (aggregateDataByInterval_returns tza (sortWith byTimestamp chartData) interval)
    as [a ->].
  - eapply Permutation_Forall; [apply Permutation_sym, sortWith_perm | exact Hall].
  - eexists. reflexivity.
Qed.

(** with status 1, an array of data and valid timestamps,
    [parseJSONChartData] returns normalized points, not the mock series *)
Lemma parseJSONChartData_normalizes (tza : Z) (d : list item) (symbol : string)
    (interval : ChartTimeInterval) :
  forallb validItem d = true ->
  exists out,
    parseJSONChartData tza (Some (mkJson (Some (FNum 1)) (Some d))) symbol interval
    = Normalized out.
Proof.
  intro Hd. destruct (normalize_returns tza d interval Hd) as [out Hout].
  exists out. unfold parseJSONChartData. cbn [status data statusIsOne].
  change (Qeq_bool 1 1) with true. cbv iota. rewrite Hout. reflexivity.
Qed.

(** ** Dates of whole timestamps *)

Lemma Qred_inject_Z (z : Z) : Qred (inject_Z z) = inject_Z z.
Proof.
  unfold Qred, inject_Z.
  pose proof (Z.ggcd_gcd z 1) as Hg.
  pose proof (Z.ggcd_correct_divisors z 1) as Hd.
  destruct (Z.ggcd z 1) as [g [aa bb]]. simpl in *.
  rewrite Z.gcd_1_r in Hg. subst g. destruct Hd as [Ha Hb].
  destruct aa, bb; simpl in *; try lia; subst; try reflexivity;
    injection Hb as <-; reflexivity.
Qed.

Lemma fin_inject_Z (z : Z) : fin (inject_Z z) = Fin (inject_Z z).
Proof. unfold fin. rewrite Qred_inject_Z. reflexivity. Qed.

(** [t * 1000] for a whole number of seconds *)
Lemma millis_of_seconds (t : Z) :
  nmul (toNumber (FNum (inject_Z t))) (num_of_Z 1000) = Fin (inject_Z (t * 1000)).
Proof.
  cbn [toNumber]. rewrite fin_inject_Z. cbn [nmul num_of_Z].
  rewrite <- fin_inject_Z. apply fin_eq. rewrite inject_Z_mult. reflexivity.
Qed.

Lemma newDate_inject_Z (z : Z) :
  inTimeRange z = true -> newDate (Fin (inject_Z z)) = Some z.
Proof.
  unfold inTimeRange, newDate. intro H.
  apply andb_true_iff in H as [H1 H2]. apply Z.leb_le in H1, H2.
  assert (Hr : Qle_bool (Qabs (inject_Z z)) (inject_Z maxTime) = true).
  { apply Qle_bool_iff. apply Qabs_Qle_condition. split.
    - rewrite <- inject_Z_opp. rewrite <- Zle_Qle. exact H1.
    - rewrite <- Zle_Qle. exact H2. }
  rewrite Hr. unfold qtrunc.
  destruct (Qle_bool 0 (inject_Z z)); [rewrite Qfloor_Z | rewrite Qceiling_Z]; reflexivity.
Qed.

Lemma noT_app (a b : string) : noT (a ++ b) = noT a && noT b.
Proof.
  induction a as [| c r IH]; simpl; [reflexivity |].
  rewrite IH. apply andb_assoc.
Qed.

Lemma digitChar_not_T (d : Z) : Ascii.eqb (digitChar d) "T" = false.
Proof.
  unfold digitChar.
  assert (H : (Z.to_nat (d mod 10) < 10)%nat).
  { pose proof (Z.mod_pos_bound d 10). lia. }
  revert H. generalize (Z.to_nat (d mod 10)). intros k H.
  do 10 (destruct k as [| k]; [reflexivity |]). lia.
Qed.

Lemma padDigits_noT (w : nat) (z : Z) (acc : string) :
  noT (padDigits w z acc) = noT acc.
Proof.
  revert z acc. induction w as [| w IH]; intros z acc; simpl; [reflexivity |].
  rewrite IH. cbn [noT]. rewrite digitChar_not_T. reflexivity.
Qed.

Lemma dateString_noT (day : Z) : noT (dateString day) = true.
Proof.
  unfold dateString. destruct (civilFromDays day) as [[y m] d].
  rewrite !noT_app, !padDigits_noT. cbn [noT]. rewrite !andb_true_r.
  unfold yearString.
  destruct (Z.leb 0 y && Z.leb y 9999).
  - rewrite padDigits_noT. reflexivity.
  - cbn [noT]. rewrite padDigits_noT. destruct (Z.ltb y 0); reflexivity.
Qed.

Lemma splitT0_at_T (a r : string) : noT a = true -> splitT0 (a ++ String "T" r) = a.
Proof.
  induction a as [| c a' IH]; simpl; intro H; [reflexivity |].
  apply andb_true_iff in H as [Hc Ha]. apply negb_true_iff in Hc.
  rewrite Hc, (IH Ha). reflexivity.
Qed.

(** the date part of the ISO string is the calendar date of the UTC day *)
Lemma splitT0_isoString (z : Z) : splitT0 (isoString z) = dateString (z / msPerDay).
Proof. unfold isoString. apply splitT0_at_T, dateString_noT. Qed.

Lemma forEachM_app {A S : Type} (f : S -> A -> option S) (l1 l2 : list A) (s : S) :
  forEachM f (l1 ++ l2) s =
  match forEachM f l1 s with
  | Some s' => forEachM f l2 s'
  | None => None
  end.
Proof.
  revert s. induction l1 as [| x r IH]; intro s; simpl; [reflexivity |].
  destruct (f s x); [apply IH | reflexivity].
Qed.

(** ** Two points of one UTC day, at daily granularity *)

Section SameDay.

Variables (tza t : Z).

Hypothesis early_in_range : inTimeRange (t * 1000) = true.
Hypothesis late_in_range : inTimeRange ((t + 43200) * 1000) = true.
Hypothesis same_day : t / 86400 = (t + 43200) / 86400.

Lemma day_of_millis (s : Z) : s * 1000 / msPerDay = s / 86400.
Proof.
  unfold msPerDay. change 86400000 with (86400 * 1000).
  apply Z.div_mul_cancel_r; lia.
Qed.

Lemma displayDate_daily (s : Z) :
  inTimeRange (s * 1000) = true ->
  displayDate I1day (newDate (Fin (inject_Z (s * 1000)))) = Some (dateString (s / 86400)).
Proof.
  intro H. rewrite (newDate_inject_Z _ H). unfold displayDate.
  cbn [isDaily toISOString option_map].
  rewrite splitT0_isoString, day_of_millis. reflexivity.
Qed.

Lemma parse_early (acc : list ChartDataPoint) :
  parseItem I1day acc (Tuple [FNum (inject_Z t); FNum 10; FNum 100])
  = Some (acc ++ [earlyPoint t]).
Proof.
  unfold parseItem. rewrite millis_of_seconds, (displayDate_daily t early_in_range).
  reflexivity.
Qed.

Lemma parse_late (acc : list ChartDataPoint) :
  parseItem I1day acc (Tuple [FNum (inject_Z (t + 43200)); FNum 12; FNum 50])
  = Some (acc ++ [latePoint t]).
Proof.
  unfold parseItem. rewrite millis_of_seconds, (displayDate_daily _ late_in_range).
  rewrite <- same_day. reflexivity.
Qed.

Lemma early_before_late : Qle_bool (byTimestamp (earlyPoint t) (latePoint t)) 0 = true.
Proof.
  apply byTimestamp_le. unfold tsLe. simpl. rewrite <- Zle_Qle. lia.
Qed.

Lemma late_after_early : Qle_bool (byTimestamp (latePoint t) (earlyPoint t)) 0 = false.
Proof.
  destruct (Qle_bool (byTimestamp (latePoint t) (earlyPoint t)) 0) eqn:E; [| reflexivity].
  apply byTimestamp_le in E. unfold tsLe in E. simpl in E. rewrite <- Zle_Qle in E. lia.
Qed.

Lemma key_early : keyOf tza I1day 1440 (earlyPoint t) = Some (dateString (t / 86400)).
Proof.
  unfold keyOf, getIntervalKey. cbn [timestamp earlyPoint isDaily].
  rewrite (newDate_inject_Z _ early_in_range). cbn [toISOString option_map].
  rewrite splitT0_isoString, day_of_millis. reflexivity.
Qed.

Lemma key_late : keyOf tza I1day 1440 (latePoint t) = Some (dateString (t / 86400)).
Proof.
  unfold keyOf, getIntervalKey. cbn [timestamp latePoint isDaily].
  rewrite (newDate_inject_Z _ late_in_range). cbn [toISOString option_map].
  rewrite splitT0_isoString, day_of_millis, <- same_day. reflexivity.
Qed.

Lemma aggregate_same_day :
  aggregateDataByInterval tza [earlyPoint t; latePoint t] I1day
  = Some [mkPoint (dateString (t / 86400)) (Fin 11) 150 (inject_Z (t * 1000))].
Proof.
  unfold aggregateDataByInterval, aggregateBuckets.
  cbn [is1min getIntervalMinutes forEachM].
  rewrite (groupPoint_fresh tza I1day 1440 [] (earlyPoint t) _ key_early eq_refl).
  cbn [app].
  rewrite (groupPoint_present tza I1day 1440 _ (latePoint t) _ key_late).
  - cbn [map]. unfold updateAt. cbn [Bucket.key]. rewrite String.eqb_refl.
    unfold pushPoint. cbn [Bucket.key Bucket.prices Bucket.volumes Bucket.timestamp app].
    cbn [price volume timestamp earlyPoint latePoint].
    assert (Hlt : Qlt_bool (inject_Z ((t + 43200) * 1000)) (inject_Z (t * 1000)) = false).
    { unfold Qlt_bool. apply negb_false_iff. apply Qle_bool_iff. rewrite <- Zle_Qle. lia. }
    rewrite Hlt. cbn [forEachM]. unfold reduceBucket.
    cbn [Bucket.key Bucket.prices Bucket.volumes Bucket.timestamp].
    rewrite (displayDate_daily t early_in_range). reflexivity.
  - cbn [mapHas existsb Bucket.key]. rewrite String.eqb_refl. reflexivity.
  - cbn [map Bucket.key]. constructor; [intros [] | constructor].
Qed.

Lemma normalize_same_day (data : list item) :
  data = [Tuple [FNum (inject_Z t); FNum 10; FNum 100];
          Tuple [FNum (inject_Z (t + 43200)); FNum 12; FNum 50]] \/
  data = [Tuple [FNum (inject_Z (t + 43200)); FNum 12; FNum 50];
          Tuple [FNum (inject_Z t); FNum 10; FNum 100]] ->
  normalize tza data I1day
  = Some [mkPoint (dateString (t / 86400)) (Fin 11) 150 (inject_Z (t * 1000))].
Proof.
  assert (Hrest : normalizePoints tza [earlyPoint t; latePoint t] I1day
                  = Some [mkPoint (dateString (t / 86400)) (Fin 11) 150
                            (inject_Z (t * 1000))]).
  { unfold normalizePoints. cbn [sortWith fold_right insertSorted].
    rewrite early_before_late, aggregate_same_day. reflexivity. }
  assert (Hswap : normalizePoints tza [latePoint t; earlyPoint t] I1day
                  = normalizePoints tza [earlyPoint t; latePoint t] I1day).
  { unfold normalizePoints. cbn [sortWith fold_right insertSorted].
    rewrite late_after_early, early_before_late. reflexivity. }
  intros [-> | ->]; unfold normalize; cbn [forEachM].
  - rewrite parse_early. cbn [app]. rewrite parse_late. cbn [app]. exact Hrest.
  - rewrite parse_late. cbn [app]. rewrite parse_early. cbn [app].
    rewrite Hswap. exact Hrest.
Qed.

End SameDay.

(** C6. Two raw points twelve hours apart within one UTC calendar day, with
    prices 10 and 12 and volumes 100 and 50, in either order, normalize at
    1-day granularity to exactly one point: price 11, volume 150, the
    calendar date of that day as display date (and the earlier timestamp). *)
Theorem daily_bucket_merges_same_day (tza t : Z) (data : list item) :
  inTimeRange (t * 1000) = true ->
  inTimeRange ((t + 43200) * 1000) = true ->
  t / 86400 = (t + 43200) / 86400 ->
  data = [Tuple [FNum (inject_Z t); FNum 10; FNum 100];
          Tuple [FNum (inject_Z (t + 43200)); FNum 12; FNum 50]] \/
  data = [Tuple [FNum (inject_Z (t + 43200)); FNum 12; FNum 50];
          Tuple [FNum (inject_Z t); FNum 10; FNum 100]] ->
  normalize tza data I1day
  = Some [mkPoint (dateString (t / 86400)) (Fin 11) 150 (inject_Z (t * 1000))].
Proof.
  intros H1 H2 H3 Hd. exact (normalize_same_day tza t H1 H2 H3 data Hd).
Qed.

(** ** The fields of a parsed point *)

Lemma canonical_zero (x : Q) : Qred x = x -> Qeq_bool x 0 = true -> x = 0%Q.
Proof.
  intros Hc Hz. apply Qeq_bool_iff in Hz.
  rewrite <- Hc. apply (Qred_complete x 0 Hz).
Qed.

Lemma readDecimalLiteral_canonical (s rest : string) (v : number) :
  readDecimalLiteral s = Some (v, rest) -> canonical v.
Proof.
  unfold readDecimalLiteral.
  destruct (takeSign s) as [neg s1].
  destruct (dropPrefix "Infinity" s1) as [r |].
  - intro H. injection H as <- _. destruct neg; exact I.
  - destruct (spanDigits decDigit s1) as [ip r1].
    destruct (match r1 with
              | String "."%char r => spanDigits decDigit r
              | _ => ([], r1)
              end) as [fp r2].
    destruct (takeExponent r2) as [e rest'].
    destruct ip, fp; try discriminate;
      intro H; injection H as <- _; apply fin_canonical.
Qed.

Lemma parseFloat_canonical (f : field) : canonical (parseFloat f).
Proof.
  destruct f as [q | s | b |]; cbn [parseFloat]; try exact I.
  - apply fin_canonical.
  - unfold parseFloatString.
    destruct (readDecimalLiteral (trimStart s)) as [[v rest] |] eqn:E; [| exact I].
    eapply readDecimalLiteral_canonical. exact E.
Qed.

(** [x || 0] replaces NaN only: a zero is already the zero *)
Lemma or_zero_canonical (a : number) :
  canonical a -> or_zero a = match a with NaN => zero | v => v end.
Proof.
  destruct a as [| | | x]; try reflexivity. cbn [canonical]. intro Hc.
  unfold or_zero, truthy.
  destruct (Qeq_bool x 0) eqn:E; [| reflexivity].
  rewrite (canonical_zero x Hc E). reflexivity.
Qed.

(** C7, as the code has it.  A raw tuple of at least three fields whose
    timestamp is a valid date is parsed to one point.  Its price is what
    [parseFloat] reads in the second field, 0 when that is NaN, and is never
    NaN.  Its volume is the integer that [parseInt] reads in the third field,
    of either sign, 0 when it reads none.  Its timestamp is the first field
    times 1000. *)
Theorem parsed_point_fields (interval : ChartTimeInterval)
    (acc : list ChartDataPoint) (f0 f1 f2 : field) (rest : list field)
    (out : list ChartDataPoint) :
  parseItem interval acc (Tuple (f0 :: f1 :: f2 :: rest)) = Some out ->
  exists p,
    out = acc ++ [p] /\
    price p = match parseFloat f1 with NaN => zero | v => v end /\
    isNaN (price p) = false /\
    volume p = match parseInt f2 with Some v => v | None => 0 end /\
    Fin (timestamp p) = nmul (toNumber f0) (num_of_Z 1000).
Proof.
  unfold parseItem.
  destruct (displayDate interval (newDate (nmul (toNumber f0) (num_of_Z 1000))))
    as [d |]; [| discriminate].
  destruct (nmul (toNumber f0) (num_of_Z 1000)) as [| | | ms]; try discriminate.
  intro H. injection H as <-. eexists. split; [reflexivity |].
  cbn [price volume timestamp].
  rewrite (or_zero_canonical _ (parseFloat_canonical f1)).
  split; [destruct (parseFloat f1); reflexivity |].
  split; [destruct (parseFloat f1); reflexivity |].
  split; reflexivity.
Qed.

(** ** Malformed tuples *)

Lemma parseItem_short (interval : ChartTimeInterval) (acc : list ChartDataPoint)
    (fs : list field) :
  (List.length fs < 3)%nat -> parseItem interval acc (Tuple fs) = Some acc.
Proof.
  intro H. destruct fs as [| f0 [| f1 [| f2 r]]]; try reflexivity.
  simpl in H. lia.
Qed.

Lemma normalize_short (tza : Z) (d1 d2 : list item) (fs : list field)
    (interval : ChartTimeInterval) :
  (List.length fs < 3)%nat ->
  normalize tza (d1 ++ Tuple fs :: d2) interval = normalize tza (d1 ++ d2) interval.
Proof.
  intro H. unfold normalize. rewrite !forEachM_app.
  destruct (forEachM (parseItem interval) d1 []) as [acc |]; [| reflexivity].
  cbn [forEachM]. rewrite (parseItem_short interval acc fs H). reflexivity.
Qed.

(** C9. A raw tuple of fewer than three fields is dropped: wherever it
    stands in the data, [parseJSONChartData] returns what it returns without
    it, so the tuple adds no point, zero-valued or other, and is no cause of
    an exception or of the fallback. *)
Theorem short_tuple_is_dropped (tza : Z) (st : option field) (d1 d2 : list item)
    (fs : list field) (symbol : string) (interval : ChartTimeInterval) :
  (List.length fs < 3)%nat ->
  parseJSONChartData tza (Some (mkJson st (Some (d1 ++ Tuple fs :: d2)))) symbol interval
  = parseJSONChartData tza (Some (mkJson st (Some (d1 ++ d2)))) symbol interval.
Proof.
  intro H. unfold parseJSONChartData. cbn [status data].
  destruct (statusIsOne st); [| reflexivity].
  rewrite (normalize_short tza d1 d2 fs interval H). reflexivity.
Qed.

(** ** The market summary *)

(** a number is above zero, below zero, zero or NaN, and one of them only *)
Lemma compare_with_zero (c : number) :
  (ngt c zero = true /\ nlt c zero = false /\ nstricteq c zero = false /\ isNaN c = false) \/
  (ngt c zero = false /\ nlt c zero = true /\ nstricteq c zero = false /\ isNaN c = false) \/
  (ngt c zero = false /\ nlt c zero = false /\ nstricteq c zero = true /\ isNaN c = false) \/
  (ngt c zero = false /\ nlt c zero = false /\ nstricteq c zero = false /\ isNaN c = true).
Proof.
  unfold ngt, nlt, nstricteq, zero.
  destruct c as [| | | x]; cbn [isNaN ncompare]; auto 10.
  destruct (x ?= 0)%Q; auto 10.
Qed.

(** C10, as the code has it.  For every list of stock records, gainers,
    losers and unchanged count the records with change above, below and
    equal to zero; together with the records whose change is NaN, which are
    in none of the three, they add up to [totalStocks], the length of the
    list, so that the three counts partition a list without NaN changes.
    [totalVolume] is the sum of the volumes, taken from the left. *)
Theorem summary_partitions_stocks (stocks : list Stock.StockData) :
  let summary := calculateMarketSummary stocks in
  let withoutChange := List.length (filter (fun s => isNaN (Stock.change s)) stocks) in
  gainers summary = List.length (filter (fun s => ngt (Stock.change s) zero) stocks) /\
  losers summary = List.length (filter (fun s => nlt (Stock.change s) zero) stocks) /\
  unchanged summary
    = List.length (filter (fun s => nstricteq (Stock.change s) zero) stocks) /\
  (gainers summary + losers summary + unchanged summary + withoutChange)%nat
    = totalStocks summary /\
  totalStocks summary = List.length stocks /\
  totalVolume summary = fold_left nadd (map Stock.volume stocks) zero /\
  (Forall (fun s => isNaN (Stock.change s) = false) stocks ->
   (gainers summary + losers summary + unchanged summary)%nat = totalStocks summary).
Proof.
  cbv zeta. unfold calculateMarketSummary.
  cbn [gainers losers unchanged totalStocks totalVolume].
  assert (Hsum : (List.length (filter (fun s => ngt (Stock.change s) zero) stocks)
                  + List.length (filter (fun s => nlt (Stock.change s) zero) stocks)
                  + List.length (filter (fun s => nstricteq (Stock.change s) zero) stocks)
                  + List.length (filter (fun s => isNaN (Stock.change s)) stocks))%nat
                 = List.length stocks).
  { induction stocks as [| s r IH]; [reflexivity |].
    cbn [filter List.length].
    destruct (compare_with_zero (Stock.change s))
      as [(-> & -> & -> & ->) | [(-> & -> & -> & ->) | [(-> & -> & -> & ->) | (-> & -> & -> & ->)]]];
      cbn [List.length]; lia. }
  repeat split; try exact Hsum.
  - clear Hsum. generalize zero.
    induction stocks as [| s r IH]; intro a; [reflexivity |].
    cbn [fold_left map]. apply IH.
  - intro Hall.
    assert (Hnone : filter (fun s => isNaN (Stock.change s)) stocks = []).
    { clear Hsum. induction Hall as [| s r Hs _ IH]; [reflexivity |].
      cbn [filter]. rewrite Hs. exact IH. }
    rewrite Hnone in Hsum. cbn [List.length] in Hsum. lia.
Qed.

(** ** The snapshot parser *)

(** C8, at a row of exactly ten cells.  Such a row passes the guard
    [cells.length >= 10], but [cells[10]] is [undefined]: whatever its cells
    hold, and so also when the first one has the symbol and the company
    elements, the row yields no record. *)
Theorem ten_cell_row_yields_no_record (c0 c1 c2 c3 c4 c5 c6 c7 c8 c9 : Cell) :
  parseHTMLData [[c0; c1; c2; c3; c4; c5; c6; c7; c8; c9]] = [] /\
  (forall symbolText dataTitle,
     strong c0 = Some symbolText -> anchor c0 = Some dataTitle ->
     parseRow [c0; c1; c2; c3; c4; c5; c6; c7; c8; c9] = Caught).
Proof.
  split.
  - unfold parseHTMLData, parseRow. cbn [fold_left List.length Nat.leb].
    destruct (strong c0), (anchor c0); reflexivity.
  - intros symbolText dataTitle Hs Ha. unfold parseRow. cbn [List.length Nat.leb].
    rewrite Hs, Ha. reflexivity.
Qed.

(** a row of eleven cells or more with the symbol and the company elements
    yields one record, whose [isPositive] is [change >= 0] *)
Lemma eleven_cell_row_is_pushed (c0 c1 c2 c3 c4 c5 c6 c7 c8 c9 c10 : Cell)
    (rest : Row) (symbolText : string) (dataTitle : option string) :
  strong c0 = Some symbolText ->
  anchor c0 = Some dataTitle ->
  exists stock,
    parseHTMLData [c0 :: c1 :: c2 :: c3 :: c4 :: c5 :: c6 :: c7 :: c8 :: c9 :: c10 :: rest]
      = [stock] /\
    Stock.change stock = parseFloatString (dataOrderOrZero c8) /\
    Stock.isPositive stock = nge (Stock.change stock) zero.
Proof.
  intros Hs Ha. unfold parseHTMLData, parseRow. cbn [fold_left List.length Nat.leb].
  rewrite Hs, Ha. eexists. split; [reflexivity |]. split; reflexivity.
Qed.

(** ** Inputs on which a claim fails *)

(** C3 at two points of one minute: the passthrough keeps both, a bucket of
    one minute merges them. *)
Lemma passthrough_differs_within_a_minute :
  aggregateDataByInterval 0 [point1; point1b] I1min = Some [point1; point1b] /\
  aggregateBuckets 0 [point1; point1b] I1min 1
    = Some [mkPoint "2023-11-14T22:13:20.000Z" (Fin (211 # 20)) 300 1700000000000] /\
  aggregateDataByInterval 0 [point1; point1b] I1min
    <> aggregateBuckets 0 [point1; point1b] I1min 1.
Proof.
  split; [reflexivity |]. split; [vm_compute; reflexivity |].
  vm_compute. discriminate.
Qed.

(** C7 at a third field that reads -5: the volume of the parsed point is
    negative. *)
Lemma negative_volume_is_kept :
  parseItem I1min [] negativeVolumeTuple
    = Some [mkPoint "2023-11-14T22:13:20.000Z" (Fin (21 # 2)) (-5) 1700000000000] /\
  ~ (forall p, parseItem I1min [] negativeVolumeTuple = Some [p] -> 0 <= volume p).
Proof.
  assert (E : parseItem I1min [] negativeVolumeTuple
              = Some [mkPoint "2023-11-14T22:13:20.000Z" (Fin (21 # 2)) (-5) 1700000000000])
    by (vm_compute; reflexivity).
  split; [exact E |].
  intro H. specialize (H _ E). simpl in H. lia.
Qed.

(** C10 at one record whose change is NaN: it is no gainer, no loser and not
    unchanged, so that the three counts do not add up to the total. *)
Lemma summary_misses_NaN_change :
  let summary := calculateMarketSummary [stockWithoutChange] in
  totalStocks summary = 1%nat /\
  (gainers summary + losers summary + unchanged summary)%nat = 0%nat /\
  (gainers summary + losers summary + unchanged summary)%nat <> totalStocks summary.
Proof.
  cbv zeta. split; [reflexivity |]. split; [reflexivity |].
  vm_compute. discriminate.
Qed.

(** ** The theorems at sample inputs *)

Lemma normalized_length_cap_witness :
  parseJSONChartData 0 samplePayload "PSX" I1min = Normalized [point1; point2] /\
  (List.length [point1; point2] <= 390)%nat.
Proof.
  assert (E : parseJSONChartData 0 samplePayload "PSX" I1min = Normalized [point1; point2])
    by (vm_compute; reflexivity).
  split; [exact E |].
  exact (proj1 (normalized_length_cap 0 samplePayload "PSX" I1min [point1; point2] E)).
Defined.

Lemma normalized_sorted_by_timestamp_witness :
  parseJSONChartData 0 samplePayload "PSX" I1min = Normalized [point1; point2] /\
  (timestamp point1 <= timestamp point2)%Q.
Proof.
  assert (E : parseJSONChartData 0 samplePayload "PSX" I1min = Normalized [point1; point2])
    by (vm_compute; reflexivity).
  split; [exact E |].
  exact (normalized_sorted_by_timestamp 0 samplePayload "PSX" I1min [point1; point2]
           0 point1 point2 E eq_refl eq_refl).
Defined.

Lemma passthrough_agrees_on_settled_points_witness :
  aggregateDataByInterval 0 [point1; point2] I1min
  = aggregateBuckets 0 [point1; point2] I1min 1.
Proof.
  apply passthrough_agrees_on_settled_points.
  - repeat constructor; unfold tsLe; vm_compute; discriminate.
  - vm_compute. repeat constructor; simpl; intuition discriminate.
  - repeat constructor; vm_compute; try reflexivity; discriminate.
Defined.

Lemma normalizePoints_idempotent_witness :
  normalizePoints 0 [point2; point1] I5min = Some [point12] /\
  normalizePoints 0 [point12] I5min = Some [point12].
Proof.
  assert (E : normalizePoints 0 [point2; point1] I5min = Some [point12])
    by (vm_compute; reflexivity).
  split; [exact E |].
  exact (normalizePoints_idempotent 0 I5min [point2; point1] [point12] E).
Defined.


Lemma daily_bucket_merges_same_day_witness :
  normalize 18000000
    [Tuple [FNum 1699923600; FNum 10; FNum 100];
     Tuple [FNum 1699966800; FNum 12; FNum 50]] I1day
  = Some [mkPoint "2023-11-14" (Fin 11) 150 1699923600000].
Proof.
  exact (daily_bucket_merges_same_day 18000000 1699923600 _
           eq_refl eq_refl eq_refl (or_introl eq_refl)).
Defined.

Lemma parsed_point_fields_witness :
  exists p,
    [mkPoint "2023-11-14T22:13:20.000Z" (Fin (21 # 2)) (-5) 1700000000000] = [] ++ [p] /\
    price p = Fin (21 # 2) /\
    isNaN (price p) = false /\
    volume p = -5 /\
    Fin (timestamp p) = Fin 1700000000000.
Proof.
  assert (E : parseItem I1min [] (Tuple [FNum 1700000000; FStr "10.5"; FStr "-5"])
              = Some [mkPoint "2023-11-14T22:13:20.000Z" (Fin (21 # 2)) (-5) 1700000000000])
    by (vm_compute; reflexivity).
  exact (parsed_point_fields I1min [] (FNum 1700000000) (FStr "10.5") (FStr "-5") [] _ E).
Defined.

Lemma short_tuple_is_dropped_witness :
  parseJSONChartData 0
    (Some (mkJson (Some (FNum 1))
             (Some ([Tuple [FNum 1700000000; FStr "10.5"; FStr "100"]]
                    ++ Tuple [FNum 1700000030; FStr "10.55"]
                    :: [Tuple [FNum 1700000060; FStr "10.6"; FStr "200"]]))))
    "PSX" I1min
  = parseJSONChartData 0 samplePayload "PSX" I1min.
Proof.
  apply (short_tuple_is_dropped 0 (Some (FNum 1))
           [Tuple [FNum 1700000000; FStr "10.5"; FStr "100"]]
           [Tuple [FNum 1700000060; FStr "10.6"; FStr "200"]]
           [FNum 1700000030; FStr "10.55"] "PSX" I1min).
  simpl. lia.
Defined.

Lemma summary_partitions_stocks_witness :
  let summary := calculateMarketSummary [stockDown; stockUp] in
  (gainers summary + losers summary + unchanged summary)%nat = totalStocks summary /\
  totalStocks summary = 2%nat /\
  totalVolume summary = Fin 40412470.
Proof.
  pose proof (summary_partitions_stocks [stockDown; stockUp])
    as (_ & _ & _ & _ & H5 & H6 & H7).
  cbv zeta. split; [| split; [exact H5 | rewrite H6; reflexivity]].
  apply H7. repeat constructor.
Defined.

Lemma ten_cell_row_yields_no_record_witness :
  parseHTMLData [tenCells] = [] /\ parseRow tenCells = Caught.
Proof.
  pose proof (ten_cell_row_yields_no_record
                symbolCell (valueCell "TEXTILE") (valueCell "ALLSHR") (valueCell "8.18")
                (valueCell "8.65") (valueCell "8.69") (valueCell "7.35")
                (valueCell "7.50") (valueCell "-0.68") (valueCell "-8.31")) as [H1 H2].
  split; [exact H1 |].
  exact (H2 "DFSM"%string (Some "Dewan Farooque Spinning Mills Limited"%string)
            eq_refl eq_refl).
Defined.

(** * Further properties of the chart path *)

(** ** Data without a usable tuple, and data with an invalid date *)

Lemma parseItems_malformed (interval : ChartTimeInterval) (d : list item)
    (acc : list ChartDataPoint) :
  forallb malformed d = true -> forEachM (parseItem interval) d acc = Some acc.
Proof.
  induction d as [| it r IH]; simpl; intro H; [reflexivity |].
  apply andb_true_iff in H as [Hit Hr].
  assert (E : parseItem interval acc it = Some acc).
  { destruct it as [[| f0 [| f1 [| f2 rest]]] |]; try reflexivity. discriminate. }
  rewrite E. apply IH. exact Hr.
Qed.

Lemma normalizePoints_nil (tza : Z) (interval : ChartTimeInterval) :
  normalizePoints tza [] interval = Some [].
Proof. destruct interval; reflexivity. Qed.

(** X1. Data that hold no array of three fields or more, the empty array
    among them, are normalized to the empty sequence at every granularity:
    the method returns no mock series for them. *)
Theorem malformed_data_normalize_to_empty (tza : Z) (st : option field)
    (d : list item) (symbol : string) (interval : ChartTimeInterval) :
  statusIsOne st = true ->
  forallb malformed d = true ->
  parseJSONChartData tza (Some (mkJson st (Some d))) symbol interval = Normalized [].
Proof.
  intros Hst Hd. unfold parseJSONChartData. cbn [status data]. rewrite Hst.
  unfold normalize. rewrite (parseItems_malformed interval d [] Hd).
  rewrite normalizePoints_nil. reflexivity.
Qed.

Lemma malformed_data_normalize_to_empty_witness :
  parseJSONChartData 18000000
    (Some (mkJson (Some (FNum 1))
             (Some [NotArray; Tuple [FNum 1700000000; FStr "10.5"]; Tuple []])))
    "PSX" I15min
  = Normalized [].
Proof.
  apply malformed_data_normalize_to_empty; reflexivity.
Defined.

(** X2. One array of three fields or more whose first field, times 1000, is
    no valid date makes [toISOString] throw: whatever else the data hold,
    the method returns the mock series and none of the other points. *)
Theorem invalid_date_discards_the_data (tza : Z) (st : option field)
    (d1 d2 : list item) (f0 f1 f2 : field) (rest : list field)
    (symbol : string) (interval : ChartTimeInterval) :
  newDate (nmul (toNumber f0) (num_of_Z 1000)) = None ->
  parseJSONChartData tza
    (Some (mkJson st (Some (d1 ++ Tuple (f0 :: f1 :: f2 :: rest) :: d2))))
    symbol interval
  = MockChartData interval.
Proof.
  intro H. unfold parseJSONChartData. cbn [status data].
  destruct (statusIsOne st); [| reflexivity].
  assert (E : normalize tza (d1 ++ Tuple (f0 :: f1 :: f2 :: rest) :: d2) interval = None).
  { unfold normalize. rewrite forEachM_app.
    destruct (forEachM (parseItem interval) d1 []) as [acc |]; [| reflexivity].
    cbn [forEachM]. unfold parseItem at 1. rewrite H.
    unfold displayDate. destruct (isDaily interval); reflexivity. }
  rewrite E. reflexivity.
Qed.

Lemma invalid_date_discards_the_data_witness :
  parseJSONChartData 0
    (Some (mkJson (Some (FNum 1))
             (Some ([Tuple [FNum 1700000000; FStr "10.5"; FStr "100"]]
                    ++ Tuple [FStr "14 Nov"; FStr "10.6"; FStr "200"] :: [])))) "PSX" I1min
  = MockChartData I1min.
Proof.
  apply invalid_date_discards_the_data. reflexivity.
Defined.

(** ** What a bucket becomes *)

Lemma Qlt_bool_true (x y : Q) : Qlt_bool x y = true -> (x < y)%Q.
Proof.
  unfold Qlt_bool. intro H. apply negb_true_iff in H.
  destruct (Qlt_le_dec x y) as [Hlt | Hle]; [exact Hlt |].
  apply Qle_bool_iff in Hle. congruence.
Qed.

Lemma Qlt_bool_false (x y : Q) : Qlt_bool x y = false -> (y <= x)%Q.
Proof.
  unfold Qlt_bool. intro H. apply negb_false_iff in H.
  apply Qle_bool_iff. exact H.
Qed.

Section Earliest.

Variables (tza : Z) (interval : ChartTimeInterval) (w : Z).

Lemma earliestOk_other (done : list ChartDataPoint) (b : Bucket.t)
    (x : ChartDataPoint) (k : string) :
  keyOf tza interval w x = Some k ->
  Bucket.key b <> k ->
  earliestOk tza interval w done b -> earliestOk tza interval w (done ++ [x]) b.
Proof.
  intros Hk Hne [(p & Hp & Hkp & Ht) Hmin]. split.
  - exists p. split; [apply in_or_app; left; exact Hp | auto].
  - intros q Hq Hkq. apply in_app_or in Hq as [Hq | [<- | []]]; [auto |].
    rewrite Hk in Hkq. injection Hkq as E. congruence.
Qed.

Lemma earliestOk_push (done : list ChartDataPoint) (b : Bucket.t)
    (x : ChartDataPoint) :
  keyOf tza interval w x = Some (Bucket.key b) ->
  earliestOk tza interval w done b ->
  earliestOk tza interval w (done ++ [x]) (pushPoint x b).
Proof.
  intros Hk [(p & Hp & Hkp & Ht) Hmin]. unfold earliestOk, pushPoint.
  cbn [Bucket.key Bucket.timestamp].
  destruct (Qlt_bool (timestamp x) (Bucket.timestamp b)) eqn:E.
  - apply Qlt_bool_true in E. split.
    + exists x. split; [apply in_or_app; right; left; reflexivity | auto].
    + intros q Hq Hkq. apply in_app_or in Hq as [Hq | [<- | []]].
      * pose proof (Hmin q Hq Hkq). lra.
      * lra.
  - apply Qlt_bool_false in E. split.
    + exists p. split; [apply in_or_app; left; exact Hp | auto].
    + intros q Hq Hkq. apply in_app_or in Hq as [Hq | [<- | []]]; [auto | exact E].
Qed.

Lemma earliest_step (done : list ChartDataPoint) (x : ChartDataPoint)
    (m m' : BucketMap) :
  groupInv tza interval w done m ->
  Forall (earliestOk tza interval w done) m ->
  groupPoint tza interval w m x = Some m' ->
  Forall (earliestOk tza interval w (done ++ [x])) m'.
Proof.
  intros (Hnd & _ & Hcov & _) Hall Hstep.
  destruct (groupPoint_key _ _ _ _ _ _ Hstep) as [k Hk].
  destruct (mapHas k m) eqn:Hm.
  - rewrite (groupPoint_present tza interval w m x k Hk Hm Hnd) in Hstep.
    injection Hstep as <-.
    apply Forall_map. eapply Forall_impl; [| exact Hall].
    intros b Hb. unfold updateAt.
    destruct (String.eqb (Bucket.key b) k) eqn:E.
    + apply String.eqb_eq in E. subst k. apply earliestOk_push; assumption.
    + apply String.eqb_neq in E. eapply earliestOk_other; eassumption.
  - rewrite (groupPoint_fresh tza interval w m x k Hk Hm) in Hstep.
    injection Hstep as <-.
    assert (Hnotin : ~ In k (map Bucket.key m)) by (apply mapHas_false; exact Hm).
    apply Forall_app. split.
    + apply Forall_forall. intros b Hb.
      eapply earliestOk_other; [exact Hk | | apply (proj1 (Forall_forall _ _) Hall b Hb)].
      intro E. apply Hnotin. rewrite <- E. apply in_map. exact Hb.
    + constructor; [| constructor]. split; cbn [Bucket.key Bucket.timestamp].
      * exists x. split; [apply in_or_app; right; left; reflexivity | auto].
      * intros q Hq Hkq. apply in_app_or in Hq as [Hq | [<- | []]]; [| apply Qle_refl].
        destruct (proj1 (Forall_forall _ _) Hcov q Hq) as (k' & Hk' & Hin').
        rewrite Hkq in Hk'. injection Hk' as <-. contradiction.
Qed.

Lemma earliest_run (l : list ChartDataPoint) (m : BucketMap) :
  forEachM (groupPoint tza interval w) l [] = Some m ->
  Forall (earliestOk tza interval w l) m.
Proof.
  intro H.
  apply (forEachM_invariant (groupPoint tza interval w)
           (fun done m => groupInv tza interval w done m /\
                          Forall (earliestOk tza interval w done) m) []) in H.
  - exact (proj2 H).
  - split; [repeat split; constructor | constructor].
  - intros done x s s' [Hinv Hall] Hstep. split.
    + eapply groupInv_step; eassumption.
    + eapply earliest_step; eassumption.
Qed.

(** the aggregation, bucket by bucket *)
Lemma aggregateBuckets_buckets (l out : list ChartDataPoint) :
  aggregateBuckets tza l interval w = Some out ->
  forall o, In o out ->
  exists b,
    bucketOk tza interval w l b /\ earliestOk tza interval w l b /\
    reducedFrom interval b o /\ keyOf tza interval w o = Some (Bucket.key b).
Proof.
  unfold aggregateBuckets.
  destruct (forEachM (groupPoint tza interval w) l []) as [m |] eqn:Hg; [| discriminate].
  destruct (forEachM (reduceBucket interval) m []) as [a |] eqn:Hr; [| discriminate].
  intro H. injection H as <-. intros o Ho.
  apply (Permutation_in _ (sortWith_perm byTimestamp a)) in Ho.
  pose proof (earliest_run l m Hg) as Hmin.
  apply groupInv_run in Hg as (_ & Hok & _ & _).
  apply reduceBucket_run in Hr as (a' & -> & Hall). simpl in Ho.
  destruct (Forall2_In_r _ _ _ _ Hall Ho) as (b & Hb & Hred).
  exists b.
  pose proof (proj1 (Forall_forall _ _) Hok b Hb) as Hbo.
  repeat split; try (apply (proj1 (Forall_forall _ _) Hmin b Hb)); try apply Hbo;
    try apply Hred.
  eapply reduced_key; eassumption.
Qed.

End Earliest.

(** X3. At a granularity coarser than one minute the timestamp of an
    aggregated point is the timestamp of an input point of its bucket, and
    the earliest of that bucket: no input point with the same key is earlier. *)
Theorem aggregated_timestamp_is_earliest (tza : Z) (l : list ChartDataPoint)
    (interval : ChartTimeInterval) (out : list ChartDataPoint) (o : ChartDataPoint) :
  is1min interval = false ->
  aggregateDataByInterval tza l interval = Some out ->
  In o out ->
  let w := getIntervalMinutes interval in
  (exists p, In p l /\ keyOf tza interval w p = keyOf tza interval w o /\
             timestamp p = timestamp o) /\
  (forall p, In p l -> keyOf tza interval w p = keyOf tza interval w o ->
             (timestamp o <= timestamp p)%Q).
Proof.
  intros H1 Hagg Ho. unfold aggregateDataByInterval in Hagg. rewrite H1 in Hagg.
  destruct (aggregateBuckets_buckets _ _ _ _ _ Hagg o Ho)
    as (b & _ & [(p & Hp & Hkp & Htp) Hmin] & (_ & _ & _ & Ht) & Hk).
  cbv zeta. rewrite Hk, Ht. split.
  - exists p. auto.
  - exact Hmin.
Qed.



Lemma aggregated_timestamp_is_earliest_witness :
  (exists p, In p [point2; point1] /\
             keyOf 0 I5min 5 p = keyOf 0 I5min 5 point12 /\
             timestamp p = timestamp point12) /\
  (forall p, In p [point2; point1] ->
             keyOf 0 I5min 5 p = keyOf 0 I5min 5 point12 ->
             (timestamp point12 <= timestamp p)%Q).
Proof.
  apply (aggregated_timestamp_is_earliest 0 [point2; point1] I5min [point12] point12).
  - reflexivity.
  - vm_compute. reflexivity.
  - left. reflexivity.
Defined.


(** ** Finite prices stay finite *)






(** ** How many points come out *)

Lemma mapUpdate_length (k : string) (f : Bucket.t -> Bucket.t) (m : BucketMap) :
  List.length (mapUpdate k f m) = List.length m.
Proof.
  induction m as [| c r IH]; simpl; [reflexivity |].
  destruct (String.eqb (Bucket.key c) k); simpl; [reflexivity | rewrite IH; reflexivity].
Qed.

Lemma mapSet_length (k : string) (b : Bucket.t) (m : BucketMap) :
  (List.length m <= List.length (mapSet k b m) <= S (List.length m))%nat /\
  mapSet k b m <> [].
Proof.
  induction m as [| c r [IH _]]; simpl.
  - split; [lia | discriminate].
  - destruct (String.eqb (Bucket.key c) k); simpl; split; try lia; discriminate.
Qed.

Lemma groupPoint_length (tza : Z) (interval : ChartTimeInterval) (w : Z)
    (m m' : BucketMap) (p : ChartDataPoint) :
  groupPoint tza interval w m p = Some m' ->
  (List.length m <= List.length m' <= S (List.length m))%nat /\
  (0 < List.length m')%nat.
Proof.
  unfold groupPoint.
  destruct (getIntervalKey tza (timestamp p) interval w) as [k |]; [| discriminate].
  intro H. injection H as <-. rewrite mapUpdate_length.
  destruct (negb (mapHas k m)) eqn:E.
  - destruct (mapSet_length k (Bucket.mk k [] [] (timestamp p)) m) as [Hl Hne].
    split; [exact Hl |].
    destruct (mapSet k (Bucket.mk k [] [] (timestamp p)) m); [congruence | simpl; lia].
  - apply negb_false_iff, mapHas_In in E.
    split; [lia |]. destruct m; [contradiction | simpl; lia].
Qed.

Lemma group_length (tza : Z) (interval : ChartTimeInterval) (w : Z)
    (l : list ChartDataPoint) (acc m : BucketMap) :
  forEachM (groupPoint tza interval w) l acc = Some m ->
  (List.length m <= List.length acc + List.length l)%nat /\
  (l <> [] -> 0 < List.length m)%nat.
Proof.
  revert acc. induction l as [| x r IH]; intros acc H; simpl in H.
  - injection H as <-. split; [simpl; lia | congruence].
  - destruct (groupPoint tza interval w acc x) as [m1 |] eqn:E; [| discriminate].
    apply groupPoint_length in E as [Hl Hpos].
    destruct (IH m1 H) as [Hle Hne]. split; [simpl; lia |]. intros _.
    destruct r as [| y r'].
    + simpl in H. injection H as <-. exact Hpos.
    + apply Hne. discriminate.
Qed.

(** X6. The aggregation returns at most as many points as it is given, and
    at least one when it is given one. *)
Theorem aggregation_count (tza : Z) (l : list ChartDataPoint)
    (interval : ChartTimeInterval) (out : list ChartDataPoint) :
  aggregateDataByInterval tza l interval = Some out ->
  (List.length out <= List.length l)%nat /\ (l <> [] -> out <> []).
Proof.
  unfold aggregateDataByInterval, aggregateBuckets. destruct (is1min interval).
  - intro H. injection H as <-. split; [lia | auto].
  - destruct (forEachM (groupPoint tza interval (getIntervalMinutes interval)) l [])
      as [m |] eqn:Hg; [| discriminate].
    destruct (forEachM (reduceBucket interval) m []) as [a |] eqn:Hr; [| discriminate].
    intro H. injection H as <-.
    apply group_length in Hg as [Hle Hne].
    apply reduceBucket_run in Hr as (a' & -> & Hall). simpl.
    apply Forall2_length in Hall.
    pose proof (Permutation_length (sortWith_perm byTimestamp a')) as Hperm.
    simpl in Hle. split; [lia |].
    intros Hl E. specialize (Hne Hl). rewrite E in Hperm. simpl in Hperm. lia.
Qed.

Lemma aggregation_count_witness :
  (List.length [point12] <= List.length [point1; point2])%nat /\
  ([point1; point2] <> [] -> [point12] <> []).
Proof.
  apply (aggregation_count 0 [point1; point2] I5min [point12]).
  vm_compute. reflexivity.
Defined.

(** ** What the slice keeps *)

Lemma StronglySorted_app_order {A : Type} (R : A -> A -> Prop) (l1 l2 : list A) :
  StronglySorted R (l1 ++ l2) -> forall a b, In a l1 -> In b l2 -> R a b.
Proof.
  induction l1 as [| x r IH]; simpl; intros Hs a b Ha Hb; [contradiction |].
  inversion Hs as [| ? ? Hr Hall]; subst. destruct Ha as [<- | Ha].
  - apply (proj1 (Forall_forall _ _) Hall b). apply in_or_app. right. exact Hb.
  - apply IH; assumption.
Qed.

(** X7. The slice keeps the most recent points: the sequence returned is
    the end of the sorted aggregate, every point left out is no later than
    every point kept, and the number kept is the smaller of the limit and of
    the number of aggregated points. *)
Theorem slice_keeps_the_most_recent (tza : Z) (l : list ChartDataPoint)
    (interval : ChartTimeInterval) (out : list ChartDataPoint) :
  normalizePoints tza l interval = Some out ->
  exists dropped,
    aggregateDataByInterval tza (sortWith byTimestamp l) interval
      = Some (dropped ++ out) /\
    List.length out
      = Nat.min (getDataLimitForInterval interval) (List.length (dropped ++ out)) /\
    (forall d o, In d dropped -> In o out -> (timestamp d <= timestamp o)%Q).
Proof.
  intro H. apply normalizePoints_inv in H as (a & Hagg & ->).
  set (n := getDataLimitForInterval interval).
  exists (firstn (List.length a - n) a). unfold sliceLast.
  rewrite firstn_skipn. split; [exact Hagg |]. split.
  - rewrite length_skipn. lia.
  - apply (StronglySorted_app_order tsLe). rewrite firstn_skipn.
    eapply aggregateDataByInterval_sorted; [| exact Hagg]. apply sortWith_sorted.
Qed.

Lemma slice_keeps_the_most_recent_witness :
  exists dropped,
    aggregateDataByInterval 0 (sortWith byTimestamp [point2; point1]) I1min
      = Some (dropped ++ [point1; point2]) /\
    List.length [point1; point2]
      = Nat.min (getDataLimitForInterval I1min) (List.length (dropped ++ [point1; point2])) /\
    (forall d o, In d dropped -> In o [point1; point2] -> (timestamp d <= timestamp o)%Q).
Proof.
  apply (slice_keeps_the_most_recent 0 [point2; point1] I1min [point1; point2]).
  vm_compute. reflexivity.
Defined.

(** ** Display dates and rounded prices *)

Lemma parseItems_dates (interval : ChartTimeInterval) (d : list item)
    (acc chartData : list ChartDataPoint) :
  forEachM (parseItem interval) d acc = Some chartData ->
  Forall (fun p => displayDate interval (newDate (Fin (timestamp p))) = Some (date p)) acc ->
  Forall (fun p => displayDate interval (newDate (Fin (timestamp p))) = Some (date p))
         chartData.
Proof.
  revert acc. induction d as [| it r IH]; intros acc H Hacc; simpl in H.
  - injection H as <-. exact Hacc.
  - destruct (parseItem interval acc it) as [acc' |] eqn:E; [| discriminate].
    apply (IH acc' H). clear IH H.
    destruct it as [[| f0 [| f1 [| f2 rest]]] |]; simpl in E;
      try (injection E as <-; exact Hacc).
    destruct (displayDate interval (newDate (nmul (toNumber f0) (num_of_Z 1000))))
      as [dd |] eqn:Hd; [| discriminate].
    destruct (nmul (toNumber f0) (num_of_Z 1000)) as [| | | t]; try discriminate.
    injection E as <-. apply Forall_app. split; [exact Hacc |].
    constructor; [exact Hd | constructor].
Qed.

(** X8. In every normalized sequence the display date of a point is the one
    of its own timestamp: the ISO string of the timestamp, cut at the T at
    1-day granularity.  At a granularity coarser than one minute the price of
    every point is rounded to two decimals as well. *)
Theorem normalized_points_are_consistent (tza : Z) (d : list item)
    (interval : ChartTimeInterval) (out : list ChartDataPoint) (p : ChartDataPoint) :
  normalize tza d interval = Some out ->
  In p out ->
  displayDate interval (newDate (Fin (timestamp p))) = Some (date p) /\
  (is1min interval = false -> toFixed2 (price p) = price p).
Proof.
  intros H Hp. apply normalize_inv in H as (chartData & a & Hparse & Hagg & ->).
  assert (Hpa : In p a).
  { unfold sliceLast in Hp. rewrite <- (firstn_skipn (List.length a - getDataLimitForInterval interval) a).
    apply in_or_app. right. exact Hp. }
  unfold aggregateDataByInterval in Hagg. destruct (is1min interval).
  - injection Hagg as <-. split; [| discriminate].
    apply (Permutation_in _ (sortWith_perm byTimestamp chartData)) in Hpa.
    pose proof (parseItems_dates interval d [] chartData Hparse (Forall_nil _)) as Hall.
    apply (proj1 (Forall_forall _ _) Hall p Hpa).
  - apply aggregateBuckets_settled in Hagg as [Hall _].
    destruct (proj1 (Forall_forall _ _) Hall p Hpa) as (_ & Hd & Hr). auto.
Qed.

Lemma normalized_points_are_consistent_witness :
  displayDate I5min (newDate (Fin (timestamp point12))) = Some (date point12) /\
  (is1min I5min = false -> toFixed2 (price point12) = price point12).
Proof.
  apply (normalized_points_are_consistent 0 sampleData I5min [point12] point12).
  - vm_compute. reflexivity.
  - left. reflexivity.
Defined.

(** ** The key of a timestamp *)

Lemma rounded_minutes_floor (lt w : Z) :
  w = 1 \/ w = 5 \/ w = 15 \/ w = 30 \/ w = 60 ->
  lt - lt mod msPerHour + lt / msPerMinute mod 60 / w * w * msPerMinute
  = lt - lt mod (w * msPerMinute).
Proof.
  unfold msPerHour, msPerMinute.
  intros [-> | [-> | [-> | [-> | ->]]]]; Z.div_mod_to_equations; lia.
Qed.

(** X9. The key of a timestamp.  At 1-day granularity it is the calendar
    date of the UTC day of the timestamp, whatever the host time zone and the
    width passed.  At an intraday granularity of width [w] minutes it is the
    ISO string of the instant at which the current multiple of [w] minutes of
    local time began, and the call throws when that instant is before the
    first valid date; where the offset of local time is a multiple of the
    width, that instant is the timestamp floored to the width in UTC. *)
Theorem key_of_timestamp (tza : Z) (q : Q) (interval : ChartTimeInterval) (w0 : Z) :
  Qle_bool (Qabs q) (inject_Z maxTime) = true ->
  let t := qtrunc q in
  let w := getIntervalMinutes interval in
  (interval = I1day ->
   getIntervalKey tza q interval w0 = Some (dateString (t / msPerDay))) /\
  (interval <> I1day ->
   let u := t - (t + tza) mod (w * msPerMinute) in
   getIntervalKey tza q interval w
     = (if inTimeRange u then Some (isoString u) else None) /\
   (tza mod (w * msPerMinute) = 0 -> u = t - t mod (w * msPerMinute))).
Proof.
  intro Hr. cbv zeta. unfold getIntervalKey, newDate. rewrite Hr. split.
  - intros ->. cbn [isDaily toISOString option_map]. rewrite splitT0_isoString.
    reflexivity.
  - intro Hne.
    assert (Hd : isDaily interval = false)
      by (destruct interval; try reflexivity; congruence).
    rewrite Hd. cbn [getMinutes option_map]. unfold setMinutes.
    assert (Hw : getIntervalMinutes interval = 1 \/ getIntervalMinutes interval = 5 \/
                 getIntervalMinutes interval = 15 \/ getIntervalMinutes interval = 30 \/
                 getIntervalMinutes interval = 60).
    { destruct interval; cbn; try congruence; auto 6. }
    split.
    + rewrite (rounded_minutes_floor _ _ Hw).
      replace (qtrunc q + tza
               - (qtrunc q + tza) mod (getIntervalMinutes interval * msPerMinute) - tza)
        with (qtrunc q - (qtrunc q + tza) mod (getIntervalMinutes interval * msPerMinute))
        by lia.
      destruct (inTimeRange _); reflexivity.
    + intro Hz. f_equal.
      rewrite Z.add_mod by (unfold msPerMinute; lia).
      rewrite Hz, Z.add_0_r. apply Z.mod_mod. unfold msPerMinute. lia.
Qed.

Lemma key_of_timestamp_witness :
  (I30min = I1day ->
   getIntervalKey 19800000 1700000000000 I30min 30
     = Some (dateString (qtrunc 1700000000000 / msPerDay))) /\
  (I30min <> I1day ->
   let u := qtrunc 1700000000000 - (qtrunc 1700000000000 + 19800000) mod (30 * msPerMinute) in
   getIntervalKey 19800000 1700000000000 I30min 30
     = (if inTimeRange u then Some (isoString u) else None) /\
   (19800000 mod (30 * msPerMinute) = 0 ->
    u = qtrunc 1700000000000 - qtrunc 1700000000000 mod (30 * msPerMinute))).
Proof.
  apply (key_of_timestamp 19800000 1700000000000 I30min 30). reflexivity.
Defined.

(** ** The order of the data *)

Lemma parseItem_acc (interval : ChartTimeInterval) (acc : list ChartDataPoint)
    (it : item) :
  parseItem interval acc it = option_map (app acc) (parseItem interval [] it).
Proof.
  destruct it as [[| f0 [| f1 [| f2 rest]]] |]; simpl; try (rewrite app_nil_r; reflexivity).
  destruct (displayDate interval (newDate (nmul (toNumber f0) (num_of_Z 1000))));
    [| reflexivity].
  destruct (nmul (toNumber f0) (num_of_Z 1000)); reflexivity.
Qed.

Lemma parseItems_acc (interval : ChartTimeInterval) (d : list item)
    (acc : list ChartDataPoint) :
  forEachM (parseItem interval) d acc
  = option_map (app acc) (forEachM (parseItem interval) d []).
Proof.
  revert acc. induction d as [| it r IH]; intro acc; simpl.
  - rewrite app_nil_r. reflexivity.
  - rewrite (parseItem_acc interval acc it).
    destruct (parseItem interval [] it) as [a |]; simpl; [| reflexivity].
    rewrite (IH (acc ++ a)), (IH a).
    destruct (forEachM (parseItem interval) r []); simpl; [| reflexivity].
    rewrite app_assoc. reflexivity.
Qed.

Lemma parseItems_cons (interval : ChartTimeInterval) (it : item) (d : list item) :
  forEachM (parseItem interval) (it :: d) []
  = match parseItem interval [] it, forEachM (parseItem interval) d [] with
    | Some a, Some r => Some (a ++ r)
    | _, _ => None
    end.
Proof.
  simpl. destruct (parseItem interval [] it) as [a |]; [| reflexivity].
  rewrite parseItems_acc.
  destruct (forEachM (parseItem interval) d []); reflexivity.
Qed.

(** the points parsed from a permutation of the data are a permutation of
    the points parsed *)
Lemma parseItems_permutation (interval : ChartTimeInterval) (d d' : list item) :
  Permutation d d' ->
  forall cd, forEachM (parseItem interval) d [] = Some cd ->
  exists cd', forEachM (parseItem interval) d' [] = Some cd' /\ Permutation cd cd'.
Proof.
  induction 1 as [| x l l' _ IH | x y l | l l' l'' _ IH1 _ IH2]; intros cd H.
  - exists cd. split; [exact H | apply Permutation_refl].
  - rewrite parseItems_cons in H. rewrite parseItems_cons.
    destruct (parseItem interval [] x) as [a |]; [| discriminate].
    destruct (forEachM (parseItem interval) l []) as [r |]; [| discriminate].
    injection H as <-. destruct (IH r eq_refl) as (r' & -> & Hp).
    exists (a ++ r'). split; [reflexivity | apply Permutation_app_head; exact Hp].
  - rewrite !parseItems_cons in H. rewrite !parseItems_cons.
    destruct (parseItem interval [] y) as [b |]; [| discriminate].
    destruct (parseItem interval [] x) as [a |];
      [| destruct (forEachM (parseItem interval) l []); discriminate].
    destruct (forEachM (parseItem interval) l []) as [r |]; [| discriminate].
    injection H as <-. exists (a ++ b ++ r). split; [reflexivity |].
    rewrite !app_assoc. apply Permutation_app_tail. apply Permutation_app_comm.
  - destruct (IH1 cd H) as (cd1 & H1 & Hp1).
    destruct (IH2 cd1 H1) as (cd2 & H2 & Hp2).
    exists cd2. split; [exact H2 | eapply perm_trans; eassumption].
Qed.

Lemma distinct_facts (l : list ChartDataPoint) :
  distinctTimestamps l ->
  NoDup l /\
  (forall a b, In a l -> In b l -> (timestamp a == timestamp b)%Q -> a = b).
Proof.
  induction 1 as [| x r Hx _ [IHn IHi]].
  - split; [constructor | intros a b []].
  - split.
    + constructor; [| exact IHn]. intro Hin.
      apply (proj1 (Forall_forall _ _) Hx x Hin). reflexivity.
    + intros a b [<- | Ha] [<- | Hb] E; auto.
      * exfalso. exact (proj1 (Forall_forall _ _) Hx b Hb E).
      * exfalso. apply (proj1 (Forall_forall _ _) Hx a Ha). symmetry. exact E.
Qed.

(** two sorted arrangements of points of distinct timestamps are the same *)
Lemma sorted_unique (l1 l2 : list ChartDataPoint) :
  StronglySorted tsLe l1 -> StronglySorted tsLe l2 ->
  Permutation l1 l2 ->
  (forall a b, In a l1 -> In b l1 -> (timestamp a == timestamp b)%Q -> a = b) ->
  l1 = l2.
Proof.
  revert l2. induction l1 as [| x r1 IH]; intros l2 Hs1 Hs2 Hp Hinj.
  - apply Permutation_nil in Hp. subst. reflexivity.
  - destruct l2 as [| y r2]; [apply Permutation_sym, Permutation_nil in Hp; discriminate |].
    inversion Hs1 as [| ? ? Hr1 Hall1]; subst.
    inversion Hs2 as [| ? ? Hr2 Hall2]; subst.
    assert (Hy : In y (x :: r1)).
    { apply (Permutation_in _ (Permutation_sym Hp)). left. reflexivity. }
    assert (Hx : In x (y :: r2)).
    { apply (Permutation_in _ Hp). left. reflexivity. }
    assert (Hxy : tsLe x y).
    { destruct Hy as [<- | Hy]; [apply Qle_refl |].
      apply (proj1 (Forall_forall _ _) Hall1 y Hy). }
    assert (Hyx : tsLe y x).
    { destruct Hx as [<- | Hx]; [apply Qle_refl |].
      apply (proj1 (Forall_forall _ _) Hall2 x Hx). }
    assert (E : x = y).
    { apply Hinj; [left; reflexivity | exact Hy |]. unfold tsLe in *. lra. }
    subst y. f_equal. apply IH; auto.
    + eapply Permutation_cons_inv. exact Hp.
    + intros a b Ha Hb. apply Hinj; right; assumption.
Qed.

Lemma sortWith_permutation (l l' : list ChartDataPoint) :
  distinctTimestamps l -> Permutation l l' ->
  sortWith byTimestamp l = sortWith byTimestamp l'.
Proof.
  intros Hd Hp. destruct (distinct_facts l Hd) as [_ Hinj].
  apply sorted_unique; try apply sortWith_sorted.
  - eapply perm_trans; [apply sortWith_perm |].
    eapply perm_trans; [exact Hp | apply Permutation_sym, sortWith_perm].
  - intros a b Ha Hb. apply Hinj.
    + apply (Permutation_in _ (sortWith_perm byTimestamp l)). exact Ha.
    + apply (Permutation_in _ (sortWith_perm byTimestamp l)). exact Hb.
Qed.

(** X10. The order in which the tuples arrive does not matter when no two
    parsed points have the same timestamp: the data and any permutation of
    them are normalized to the same sequence, at every granularity. *)
Theorem normalize_ignores_arrival_order (tza : Z) (d d' : list item)
    (interval : ChartTimeInterval) (chartData : list ChartDataPoint) :
  Permutation d d' ->
  forEachM (parseItem interval) d [] = Some chartData ->
  distinctTimestamps chartData ->
  normalize tza d' interval = normalize tza d interval.
Proof.
  intros Hp Hparse Hd.
  destruct (parseItems_permutation interval d d' Hp chartData Hparse) as (cd' & H' & Hpc).
  unfold normalize, normalizePoints. rewrite Hparse, H'.
  rewrite (sortWith_permutation chartData cd' Hd Hpc). reflexivity.
Qed.

Lemma normalize_ignores_arrival_order_witness :
  normalize 0 (rev sampleData) I1min = normalize 0 sampleData I1min.
Proof.
  apply (normalize_ignores_arrival_order 0 sampleData (rev sampleData) I1min
           [point1; point2]).
  - apply Permutation_rev.
  - vm_compute. reflexivity.
  - repeat constructor. vm_compute. discriminate.
Defined.

(** * Further properties of the snapshot path *)

Lemma parseHTMLData_from (rows : list Row) (acc : list Stock.StockData) :
  fold_left
    (fun stocks row =>
       match parseRow row with
       | Pushed stock => stocks ++ [stock]
       | _ => stocks
       end)
    rows acc
  = acc ++ parseHTMLData rows.
Proof.
  unfold parseHTMLData. revert acc.
  induction rows as [| row r IH]; intro acc; simpl; [rewrite app_nil_r; reflexivity |].
  rewrite IH. rewrite (IH (match parseRow row with Pushed stock => [stock] | _ => [] end)).
  destruct (parseRow row); simpl; rewrite <- ?app_assoc; reflexivity.
Qed.

(** X11. The rows are parsed one by one and the records keep the order of
    the rows: the records of two lists of rows put end to end are the records
    of the first followed by the records of the second. *)
Theorem parseHTMLData_app (rows1 rows2 : list Row) :
  parseHTMLData (rows1 ++ rows2) = parseHTMLData rows1 ++ parseHTMLData rows2.
Proof.
  unfold parseHTMLData at 1. rewrite fold_left_app.
  fold (parseHTMLData rows1). apply parseHTMLData_from.
Qed.

Lemma parseRow_pushed (cells : Row) :
  if quoteRow cells then exists stock, parseRow cells = Pushed stock
  else forall stock, parseRow cells <> Pushed stock.
Proof.
  unfold quoteRow, parseRow.
  destruct cells as [| c0 cells]; [cbn; discriminate |].
  do 9 (destruct cells as [| ? cells];
        [cbn [List.length Nat.leb andb]; discriminate |]).
  destruct cells as [| c10 cells].
  - cbn [List.length Nat.leb andb]. intro stock.
    destruct (strong c0); [destruct (anchor c0) |]; discriminate.
  - cbn [List.length Nat.leb andb].
    destruct (strong c0); [destruct (anchor c0) |]; cbn [isSome andb];
      try discriminate; eexists; reflexivity.
Qed.

Lemma parseHTMLData_cons (row : Row) (rows : list Row) :
  parseHTMLData (row :: rows)
  = match parseRow row with Pushed stock => [stock] | _ => [] end ++ parseHTMLData rows.
Proof.
  change (row :: rows) with ([row] ++ rows). rewrite parseHTMLData_app.
  f_equal; unfold parseHTMLData; simpl; destruct (parseRow row); reflexivity.
Qed.

(** X12. The number of records is the number of rows that have eleven cells
    or more and a first cell with a [strong] and an [a] element; every other
    row, the rows of exactly ten cells among them, adds nothing; so that
    there are never more records than rows. *)
Theorem parseHTMLData_count (rows : list Row) :
  List.length (parseHTMLData rows) = List.length (filter quoteRow rows) /\
  (List.length (parseHTMLData rows) <= List.length rows)%nat.
Proof.
  assert (H : List.length (parseHTMLData rows) = List.length (filter quoteRow rows)).
  { induction rows as [| row r IH]; [reflexivity |].
    rewrite parseHTMLData_cons, length_app, IH. cbn [filter].
    pose proof (parseRow_pushed row) as Hrow.
    destruct (quoteRow row).
    - destruct Hrow as [stock ->]. reflexivity.
    - destruct (parseRow row) as [stock | |]; [| reflexivity | reflexivity].
      exfalso. exact (Hrow stock eq_refl). }
  split; [exact H |]. rewrite H. apply filter_length_le.
Qed.

(** X13. A cell without a [data-order] attribute, or with an empty one, is
    read as 0: a row of eleven cells or more whose change cell has none
    yields a record with a change of 0, which counts as positive. *)
Theorem missing_change_reads_as_zero (c0 c1 c2 c3 c4 c5 c6 c7 c8 c9 c10 : Cell)
    (rest : Row) (symbolText : string) (dataTitle : option string) :
  strong c0 = Some symbolText ->
  anchor c0 = Some dataTitle ->
  dataOrder c8 = None \/ dataOrder c8 = Some EmptyString ->
  exists stock,
    parseRow (c0 :: c1 :: c2 :: c3 :: c4 :: c5 :: c6 :: c7 :: c8 :: c9 :: c10 :: rest)
      = Pushed stock /\
    Stock.change stock = zero /\ Stock.isPositive stock = true.
Proof.
  intros Hs Ha Hc. unfold parseRow. cbn [List.length Nat.leb]. rewrite Hs, Ha.
  eexists. split; [reflexivity |]. cbn [Stock.change Stock.isPositive].
  unfold dataOrderOrZero. destruct Hc as [-> | ->]; split; reflexivity.
Qed.

Lemma missing_change_reads_as_zero_witness :
  exists stock,
    parseRow (symbolCell :: valueCell "TEXTILE" :: valueCell "ALLSHR" :: valueCell "8.18"
              :: valueCell "8.65" :: valueCell "8.69" :: valueCell "7.35"
              :: valueCell "7.50" :: mkCell None None "-" None :: valueCell "-8.31"
              :: valueCell "24127221" :: [])
      = Pushed stock /\
    Stock.change stock = zero /\ Stock.isPositive stock = true.
Proof.
  apply (missing_change_reads_as_zero symbolCell _ _ _ _ _ _ _ (mkCell None None "-" None)
           _ _ [] "DFSM" (Some "Dewan Farooque Spinning Mills Limited"%string));
    auto.
Defined.

Lemma nge_is_gt_or_eq (c : number) : nge c zero = ngt c zero || nstricteq c zero.
Proof.
  unfold nge, ngt, nstricteq. destruct (ncompare c zero) as [[| |] |]; reflexivity.
Qed.

Lemma parsed_isPositive (rows : list Row) :
  Forall (fun s => Stock.isPositive s = nge (Stock.change s) zero) (parseHTMLData rows).
Proof.
  induction rows as [| row r IH]; [constructor |].
  rewrite parseHTMLData_cons. apply Forall_app. split; [| exact IH].
  destruct (parseRow row) as [stock | |] eqn:E; try constructor; [| constructor].
  unfold parseRow in E.
  destruct (Nat.leb 10 (List.length row)); [| discriminate].
  destruct row as [| c0 [| c1 [| c2 [| c3 [| c4 [| c5 [| c6 [| c7 [| c8 [| c9 rest]]]]]]]]]];
    try discriminate.
  destruct (strong c0), (anchor c0); try discriminate.
  destruct rest as [| c10 rest']; [discriminate |].
  injection E as <-. reflexivity.
Qed.

(** X14. On the records that [parseHTMLData] returns, the flag and the
    summary agree except on NaN: the records flagged positive are the
    gainers and the unchanged together, and the records not flagged are the
    losers together with the records whose change is NaN, which are shown as
    losses and counted in none of the three. *)
Theorem flags_against_summary (rows : list Row) :
  let stocks := parseHTMLData rows in
  let summary := calculateMarketSummary stocks in
  List.length (filter Stock.isPositive stocks)
    = (gainers summary + unchanged summary)%nat /\
  List.length (filter (fun s => negb (Stock.isPositive s)) stocks)
    = (losers summary
       + List.length (filter (fun s => isNaN (Stock.change s)) stocks))%nat.
Proof.
  cbv zeta. unfold calculateMarketSummary. cbn [gainers losers unchanged].
  pose proof (parsed_isPositive rows) as Hall.
  induction Hall as [| s r Hs _ [IH1 IH2]]; [split; reflexivity |].
  cbn [filter]. rewrite Hs, nge_is_gt_or_eq.
  destruct (compare_with_zero (Stock.change s))
    as [(-> & -> & -> & ->) | [(-> & -> & -> & ->) | [(-> & -> & -> & ->) | (-> & -> & -> & ->)]]];
    cbn [orb negb List.length]; split; lia.
Qed.

(** ** The total volume *)







(** * Properties of the fetch loops *)

Lemma fetchMarketDataFrom_cons (fetch : string -> MarketResponse) (proxy : string)
    (rest : list string) :
  fetchMarketDataFrom fetch (proxy :: rest)
  = let '(result, requests) :=
      match fetch (marketUrl proxy) with
      | MarketPage rows =>
          if Nat.ltb 0 (List.length (parseHTMLData rows)) then (parseHTMLData rows, [])
          else fetchMarketDataFrom fetch rest
      | _ => fetchMarketDataFrom fetch rest
      end in
    (result, marketUrl proxy :: requests).
Proof. destruct rest; reflexivity. Qed.

Lemma fetchMarketDataFrom_unusable (fetch : string -> MarketResponse) (proxy : string)
    (rest : list string) :
  unusable (fetch (marketUrl proxy)) = true ->
  fetchMarketDataFrom fetch (proxy :: rest)
  = (fst (fetchMarketDataFrom fetch rest),
     marketUrl proxy :: snd (fetchMarketDataFrom fetch rest)).
Proof.
  intro H. rewrite fetchMarketDataFrom_cons. unfold unusable in H.
  destruct (fetch (marketUrl proxy)) as [| | rows];
    try (destruct (fetchMarketDataFrom fetch rest); reflexivity).
  apply Nat.eqb_eq in H. rewrite H. cbn [Nat.ltb Nat.leb].
  destruct (fetchMarketDataFrom fetch rest); reflexivity.
Qed.

Lemma fetchMarketDataFrom_first (fetch : string -> MarketResponse)
    (pre post : list string) (p : string) (rows : list Row) :
  Forall (fun q => unusable (fetch (marketUrl q)) = true) pre ->
  fetch (marketUrl p) = MarketPage rows ->
  parseHTMLData rows <> [] ->
  fetchMarketDataFrom fetch (pre ++ p :: post)
  = (parseHTMLData rows, map marketUrl (pre ++ [p])).
Proof.
  intros Hpre Hp Hne. induction Hpre as [| q r Hq _ IH]; cbn [app].
  - rewrite fetchMarketDataFrom_cons, Hp.
    destruct (parseHTMLData rows) as [| s0 r0]; [congruence | reflexivity].
  - rewrite (fetchMarketDataFrom_unusable fetch q _ Hq), IH. reflexivity.
Qed.

Lemma fetchMarketDataFrom_none (fetch : string -> MarketResponse) (proxies : list string) :
  Forall (fun q => unusable (fetch (marketUrl q)) = true) proxies ->
  fetchMarketDataFrom fetch proxies = (getMockData, map marketUrl proxies).
Proof.
  induction 1 as [| q r Hq _ IH]; [reflexivity |].
  rewrite (fetchMarketDataFrom_unusable fetch q _ Hq), IH. reflexivity.
Qed.

(** X16. [fetchMarketData] returns the records of the first proxy, in the
    order of [CORS_PROXIES], that answers with a page holding a quote row,
    and requests no proxy after it: the proxies before it, which failed or
    answered without a quote row, and that one are the requests made. *)
Theorem first_usable_page_wins (fetch : string -> MarketResponse)
    (pre post : list string) (p : string) (rows : list Row) :
  CORS_PROXIES = pre ++ p :: post ->
  Forall (fun q => unusable (fetch (marketUrl q)) = true) pre ->
  fetch (marketUrl p) = MarketPage rows ->
  parseHTMLData rows <> [] ->
  fetchMarketData fetch = (parseHTMLData rows, map marketUrl (pre ++ [p])).
Proof.
  intros Hsplit Hpre Hp Hne. unfold fetchMarketData. rewrite Hsplit.
  apply fetchMarketDataFrom_first; assumption.
Qed.

Lemma first_usable_page_wins_witness :
  fetchMarketData secondProxyServes
  = (parseHTMLData [tenCells; elevenCells],
     map marketUrl ["https://corsproxy.io/?"; "https://cors-anywhere.herokuapp.com/"]).
Proof.
  apply (first_usable_page_wins secondProxyServes
           ["https://corsproxy.io/?"] ["https://api.allorigins.win/raw?url="]
           "https://cors-anywhere.herokuapp.com/" [tenCells; elevenCells]).
  - reflexivity.
  - constructor; [vm_compute; reflexivity | constructor].
  - vm_compute; reflexivity.
  - vm_compute; discriminate.
Defined.

(** X17. When no proxy answers with a page holding a quote row,
    [fetchMarketData] returns the five mock records, after one request to
    each of the three proxies; the summary then shows five stocks, two
    gainers and three losers. *)
Theorem no_usable_page_gives_mock_data (fetch : string -> MarketResponse) :
  Forall (fun q => unusable (fetch (marketUrl q)) = true) CORS_PROXIES ->
  fetchMarketData fetch = (getMockData, map marketUrl CORS_PROXIES) /\
  List.length (snd (fetchMarketData fetch)) = 3%nat /\
  calculateMarketSummary (fst (fetchMarketData fetch))
  = mkSummary 5 2 3 0 (num_of_Z 87927099).
Proof.
  intro H. unfold fetchMarketData.
  rewrite (fetchMarketDataFrom_none fetch CORS_PROXIES H).
  split; [reflexivity |]. split; reflexivity.
Qed.

Lemma no_usable_page_gives_mock_data_witness :
  fetchMarketData (fun _ => MarketNotOk) = (getMockData, map marketUrl CORS_PROXIES) /\
  List.length (snd (fetchMarketData (fun _ => MarketNotOk))) = 3%nat /\
  calculateMarketSummary (fst (fetchMarketData (fun _ => MarketNotOk)))
  = mkSummary 5 2 3 0 (num_of_Z 87927099).
Proof.
  apply (no_usable_page_gives_mock_data (fun _ => MarketNotOk)).
  repeat constructor.
Defined.

Lemma fetchMarketDataFrom_result (fetch : string -> MarketResponse)
    (proxies : list string) :
  fst (fetchMarketDataFrom fetch proxies) <> [] /\
  (List.length (snd (fetchMarketDataFrom fetch proxies)) <= List.length proxies)%nat /\
  (proxies <> [] -> snd (fetchMarketDataFrom fetch proxies) <> []) /\
  (fst (fetchMarketDataFrom fetch proxies) = getMockData \/
   exists p rows, In p proxies /\ fetch (marketUrl p) = MarketPage rows /\
                  fst (fetchMarketDataFrom fetch proxies) = parseHTMLData rows).
Proof.
  induction proxies as [| q r (IH1 & IH2 & IH3 & IH4)].
  - repeat split; try discriminate; auto.
  - rewrite fetchMarketDataFrom_cons.
    assert (Hrest :
      fst (let '(result, requests) := fetchMarketDataFrom fetch r in
           (result, marketUrl q :: requests)) <> [] /\
      (List.length (snd (let '(result, requests) := fetchMarketDataFrom fetch r in
                         (result, marketUrl q :: requests)))
       <= List.length (q :: r))%nat /\
      (q :: r <> [] ->
       snd (let '(result, requests) := fetchMarketDataFrom fetch r in
            (result, marketUrl q :: requests)) <> []) /\
      (fst (let '(result, requests) := fetchMarketDataFrom fetch r in
            (result, marketUrl q :: requests)) = getMockData \/
       exists p rows, In p (q :: r) /\ fetch (marketUrl p) = MarketPage rows /\
         fst (let '(result, requests) := fetchMarketDataFrom fetch r in
              (result, marketUrl q :: requests)) = parseHTMLData rows)).
    { destruct (fetchMarketDataFrom fetch r) as [res reqs]. cbn [fst snd] in *.
      split; [exact IH1 |]. split; [simpl; lia |]. split; [discriminate |].
      destruct IH4 as [-> | (p & rows & Hp & Hf & ->)]; [left; reflexivity |].
      right. exists p, rows. split; [right; exact Hp | split; [exact Hf | reflexivity]]. }
    destruct (fetch (marketUrl q)) as [| | rows] eqn:E; try exact Hrest.
    destruct (parseHTMLData rows) as [| s0 r0] eqn:Ep; [exact Hrest |].
    cbn [List.length Nat.ltb Nat.leb fst snd].
    split; [discriminate |]. split; [lia |]. split; [discriminate |].
    right. exists q, rows. rewrite Ep.
    split; [left; reflexivity | split; [exact E | reflexivity]].
Qed.

(** X18. Whatever the proxies answer, [fetchMarketData] returns at least
    one record, after one to three requests: the mock data, or the records
    of a page that one of the proxies has returned. *)
Theorem fetchMarketData_never_empty (fetch : string -> MarketResponse) :
  fst (fetchMarketData fetch) <> [] /\
  (1 <= List.length (snd (fetchMarketData fetch)) <= 3)%nat /\
  (fst (fetchMarketData fetch) = getMockData \/
   exists p rows, In p CORS_PROXIES /\ fetch (marketUrl p) = MarketPage rows /\
                  fst (fetchMarketData fetch) = parseHTMLData rows).
Proof.
  unfold fetchMarketData.
  destruct (fetchMarketDataFrom_result fetch CORS_PROXIES) as (H1 & H2 & H3 & H4).
  split; [exact H1 |]. split; [| exact H4].
  assert (Hne : snd (fetchMarketDataFrom fetch CORS_PROXIES) <> [])
    by (apply H3; discriminate).
  split; [| exact H2].
  destruct (snd (fetchMarketDataFrom fetch CORS_PROXIES)); [congruence | simpl; lia].
Qed.

Lemma fetchSeriesFrom_first (tza : Z) (fetch : string -> SeriesResponse)
    (symbol : string) (interval : ChartTimeInterval)
    (pre post : list string) (p : string) (jsonData : option JsonData) :
  Forall (fun q => isSeriesJson (fetch (seriesUrl q symbol)) = false) pre ->
  fetch (seriesUrl p symbol) = SeriesJson jsonData ->
  fetchStockTimeSeriesFrom tza fetch symbol interval (pre ++ p :: post)
  = (seriesOf symbol (parseJSONChartData tza jsonData symbol interval),
     map (fun q => seriesUrl q symbol) (pre ++ [p])).
Proof.
  intros Hpre Hp. induction Hpre as [| q r Hq _ IH]; cbn [app fetchStockTimeSeriesFrom].
  - rewrite Hp. reflexivity.
  - rewrite IH. destruct (fetch (seriesUrl q symbol)); try reflexivity. discriminate.
Qed.

Lemma fetchSeriesFrom_none (tza : Z) (fetch : string -> SeriesResponse)
    (symbol : string) (interval : ChartTimeInterval) (proxies : list string) :
  Forall (fun q => isSeriesJson (fetch (seriesUrl q symbol)) = false) proxies ->
  fetchStockTimeSeriesFrom tza fetch symbol interval proxies
  = (seriesOf symbol (MockChartData interval),
     map (fun q => seriesUrl q symbol) proxies).
Proof.
  induction 1 as [| q r Hq _ IH]; cbn [fetchStockTimeSeriesFrom]; [reflexivity |].
  rewrite IH. destruct (fetch (seriesUrl q symbol)); try reflexivity. discriminate.
Qed.

(** X19. [fetchStockTimeSeries] stops at the first proxy, in the order of
    [CORS_PROXIES], whose answer is ok and parses as JSON, and returns what
    [parseJSONChartData] makes of that answer around the symbol asked for,
    with a price, a change and a volume of 0 and no history. *)
Theorem first_json_answer_decides (tza : Z) (fetch : string -> SeriesResponse)
    (symbol : string) (interval : ChartTimeInterval)
    (pre post : list string) (p : string) (jsonData : option JsonData) :
  CORS_PROXIES = pre ++ p :: post ->
  Forall (fun q => isSeriesJson (fetch (seriesUrl q symbol)) = false) pre ->
  fetch (seriesUrl p symbol) = SeriesJson jsonData ->
  fetchStockTimeSeries tza fetch symbol interval
  = (Series.mk symbol (symbol ++ " Company Limited")%string "ALLSHR"
       zero zero zero zero None None None None None []
       (parseJSONChartData tza jsonData symbol interval),
     map (fun q => seriesUrl q symbol) (pre ++ [p])).
Proof.
  intros Hsplit Hpre Hp. unfold fetchStockTimeSeries. rewrite Hsplit.
  apply fetchSeriesFrom_first; assumption.
Qed.

Lemma first_json_answer_decides_witness :
  fetchStockTimeSeries 18000000 secondProxyAnswers "HBL" I5min
  = (Series.mk "HBL" "HBL Company Limited" "ALLSHR"
       zero zero zero zero None None None None None []
       (parseJSONChartData 18000000 samplePayload "HBL" I5min),
     map (fun q => seriesUrl q "HBL")
       ["https://corsproxy.io/?"; "https://cors-anywhere.herokuapp.com/"]).
Proof.
  apply (first_json_answer_decides 18000000 secondProxyAnswers "HBL" I5min
           ["https://corsproxy.io/?"] ["https://api.allorigins.win/raw?url="]
           "https://cors-anywhere.herokuapp.com/" samplePayload).
  - reflexivity.
  - constructor; [vm_compute; reflexivity | constructor].
  - vm_compute; reflexivity.
Defined.

Lemma first_json_answer_shape (tza : Z) (fetch : string -> SeriesResponse)
    (symbol : string) (interval : ChartTimeInterval) (jsonData : option JsonData) :
  fetch (seriesUrl "https://corsproxy.io/?" symbol) = SeriesJson jsonData ->
  fetchStockTimeSeries tza fetch symbol interval
  = (seriesOf symbol (parseJSONChartData tza jsonData symbol interval),
     [seriesUrl "https://corsproxy.io/?" symbol]).
Proof.
  intro Hf. unfold fetchStockTimeSeries, CORS_PROXIES.
  apply (fetchSeriesFrom_first tza fetch symbol interval [] _ _ jsonData (Forall_nil _) Hf).
Qed.

(** X20. A JSON answer of the first proxy that is not the expected payload,
    its status not being 1 or its data no array, ends the search: the chart
    is the mock series and the two other proxies are never requested, unlike
    in [fetchMarketData], which goes on to the next proxy after a page
    without records. *)
Theorem unusable_payload_ends_the_search (tza : Z) (fetch : string -> SeriesResponse)
    (symbol : string) (interval : ChartTimeInterval) (j : JsonData) :
  fetch (seriesUrl "https://corsproxy.io/?" symbol) = SeriesJson (Some j) ->
  statusIsOne (status j) = false \/ data j = None ->
  Series.chartData (fst (fetchStockTimeSeries tza fetch symbol interval))
    = MockChartData interval /\
  snd (fetchStockTimeSeries tza fetch symbol interval)
    = [seriesUrl "https://corsproxy.io/?" symbol].
Proof.
  intros Hf Hj.
  rewrite (first_json_answer_shape tza fetch symbol interval (Some j) Hf).
  cbn [fst snd Series.chartData]. split; [| reflexivity].
  unfold parseJSONChartData. destruct Hj as [-> | ->]; [reflexivity |].
  destruct (statusIsOne (status j)); reflexivity.
Qed.

Lemma unusable_payload_ends_the_search_witness :
  Series.chartData (fst (fetchStockTimeSeries 18000000 statusZeroAnswers "HBL" I5min))
    = MockChartData I5min /\
  snd (fetchStockTimeSeries 18000000 statusZeroAnswers "HBL" I5min)
    = [seriesUrl "https://corsproxy.io/?" "HBL"].
Proof.
  apply (unusable_payload_ends_the_search 18000000 statusZeroAnswers "HBL" I5min
           (mkJson (Some (FNum 0)) (Some sampleData))).
  - reflexivity.
  - left. reflexivity.
Defined.

(** X21. When no proxy returns JSON, [fetchStockTimeSeries] returns the mock
    series for the interval asked for, after one request to each proxy. *)
Theorem no_json_answer_gives_mock_chart (tza : Z) (fetch : string -> SeriesResponse)
    (symbol : string) (interval : ChartTimeInterval) :
  Forall (fun q => isSeriesJson (fetch (seriesUrl q symbol)) = false) CORS_PROXIES ->
  fetchStockTimeSeries tza fetch symbol interval
  = (seriesOf symbol (MockChartData interval),
     map (fun q => seriesUrl q symbol) CORS_PROXIES).
Proof.
  intro H. unfold fetchStockTimeSeries. apply fetchSeriesFrom_none. exact H.
Qed.

Lemma no_json_answer_gives_mock_chart_witness :
  fetchStockTimeSeries 18000000 (fun _ => SeriesRejected) "HBL" I1day
  = (seriesOf "HBL" (MockChartData I1day),
     map (fun q => seriesUrl q "HBL") CORS_PROXIES).
Proof.
  apply (no_json_answer_gives_mock_chart 18000000 (fun _ => SeriesRejected) "HBL" I1day).
  repeat constructor.
Defined.

(** * Properties of the generated values *)

Lemma stepMillis_range (interval : ChartTimeInterval) :
  0 < stepMillis interval <= msPerDay.
Proof. destruct interval; vm_compute; split; congruence. Qed.

(** the date of a turn is [i] steps before [today], whatever the time zone *)
Lemma mockDate_eq (tza today : Z) (interval : ChartTimeInterval) (i : Z) :
  mockDate tza today interval i
  = if inTimeRange (today - i * stepMillis interval)
    then Some (today - i * stepMillis interval) else None.
Proof.
  unfold mockDate, stepMillis, getDate, getMinutes, setDate, setMinutesOnly.
  cbn [option_map]. cbv zeta.
  destruct (isDaily interval) eqn:Hd.
  - replace (getIntervalMinutes interval) with 1440
      by (destruct interval; try discriminate; reflexivity).
    generalize (snd (civilFromDays ((today + tza) / msPerDay))). intro dd.
    replace (((today + tza) / msPerDay - (dd - 1) + (dd - i) - 1) * msPerDay
             + (today + tza) mod msPerDay - tza)
      with (today - i * (1440 * msPerMinute)); [reflexivity |].
    unfold msPerDay, msPerMinute. Z.div_mod_to_equations. lia.
  - generalize ((today + tza) / msPerMinute mod 60). intro mm.
    replace (today + tza - mm * msPerMinute
             + (mm - i * getIntervalMinutes interval) * msPerMinute - tza)
      with (today - i * (getIntervalMinutes interval * msPerMinute)) by ring.
    reflexivity.
Qed.

Lemma mockChartLoop_step (tza today : Z) (random : nat -> Q)
    (interval : ChartTimeInterval) (i : nat) (basePrice : number) (k : nat)
    (data : list ChartDataPoint) :
  inTimeRange (today - Z.of_nat i * stepMillis interval) = true ->
  exists p,
    mockChartLoop tza today random interval i basePrice k data
    = match i with
      | O => Some (data ++ [p])
      | S i' => mockChartLoop tza today random interval i'
                  (mockPrice random basePrice k) (S (S k)) (data ++ [p])
      end /\
    price p = toFixed2 (mockPrice random basePrice k) /\
    volume p = Qfloor (random (S k) * 1000000) /\
    timestamp p = inject_Z (today - Z.of_nat i * stepMillis interval) /\
    displayDate interval (Some (today - Z.of_nat i * stepMillis interval)) = Some (date p).
Proof.
  intro Hr.
  destruct (displayDate interval (Some (today - Z.of_nat i * stepMillis interval)))
    as [dateStr |] eqn:Hd.
  2: { unfold displayDate in Hd. destruct (isDaily interval); discriminate. }
  eexists (mkPoint dateStr _ _ _).
  split; [| cbn [price volume timestamp date]; repeat split; reflexivity].
  destruct i as [| i']; cbn [mockChartLoop]; rewrite mockDate_eq, Hr, Hd; reflexivity.
Qed.

Lemma mockPrice_ok (random : nat -> Q) (b : Q) (k : nat) :
  exists q, mockPrice random (Fin b) k = Fin q /\ (1 <= q)%Q.
Proof.
  unfold mockPrice. cbn [nsub nmul nadd fin nmax ncompare num_of_Z].
  match goal with |- context [Qcompare ?x ?y] => destruct (Qcompare x y) eqn:E end.
  - eexists. split; [reflexivity |]. apply Qeq_alt in E. rewrite E. apply Qle_refl.
  - exists (inject_Z 1). split; [reflexivity | apply Qle_refl].
  - eexists. split; [reflexivity |]. apply Qgt_alt in E. apply Qlt_le_weak. exact E.
Qed.

Lemma toFixed2_at_least_one (q : Q) :
  (1 <= q)%Q -> exists q', toFixed2 (Fin q) = Fin q' /\ (1 <= q')%Q.
Proof.
  intro H. unfold toFixed2, fin.
  destruct (Qle_bool ten21 (Qabs q)).
  - eexists. split; [reflexivity |]. rewrite Qred_correct. exact H.
  - assert (H0 : Qle_bool 0 q = true) by (apply Qle_bool_iff; lra).
    rewrite H0. eexists. split; [reflexivity |]. rewrite Qred_correct.
    assert (Hn : 100 <= Qfloor (Qabs q * 100 + (1 # 2))).
    { change 100 with (Qfloor (inject_Z 100)) at 1. apply Qfloor_resp_le.
      rewrite Qabs_pos by lra. change (inject_Z 100) with 100%Q. lra. }
    unfold Qle. cbn [Qnum Qden]. lia.
Qed.

Lemma mock_point_price (random : nat -> Q) (b : Q) (k : nat) :
  isFinite (toFixed2 (mockPrice random (Fin b) k)) = true /\
  nge (toFixed2 (mockPrice random (Fin b) k)) (num_of_Z 1) = true.
Proof.
  destruct (mockPrice_ok random b k) as (q & -> & Hq).
  destruct (toFixed2_at_least_one q Hq) as (q' & -> & Hq').
  split; [reflexivity |].
  unfold nge, ncompare, num_of_Z.
  destruct (Qcompare q' (inject_Z 1)) eqn:E; try reflexivity.
  apply Qlt_alt in E. change (inject_Z 1) with 1%Q in E. lra.
Qed.

Lemma draw_volume (r : Q) :
  (0 <= r /\ r < 1)%Q -> 0 <= Qfloor (r * 1000000) < 1000000.
Proof.
  intros [H0 H1]. split.
  - change 0 with (Qfloor (inject_Z 0)). apply Qfloor_resp_le.
    change (inject_Z 0) with 0%Q. lra.
  - rewrite Zlt_Qlt. eapply Qle_lt_trans; [apply Qfloor_le |].
    change (inject_Z 1000000) with 1000000%Q. lra.
Qed.

Lemma mockTimestamps_S (today : Z) (interval : ChartTimeInterval) (n : nat) :
  mockTimestamps today interval (S n)
  = inject_Z (today - Z.of_nat (S n) * stepMillis interval)
    :: mockTimestamps today interval n.
Proof.
  unfold mockTimestamps. rewrite (seq_S (S n)), rev_app_distr. reflexivity.
Qed.

(** the loop from turn [i] on, started with a finite base price *)
Lemma mockChartLoop_spec (tza today : Z) (random : nat -> Q)
    (interval : ChartTimeInterval) :
  0 <= today <= maxTime ->
  forall (i : nat) (b : Q) (k : nat) (data : list ChartDataPoint),
    Z.of_nat i * stepMillis interval <= maxTime ->
    exists out,
      mockChartLoop tza today random interval i (Fin b) k data = Some (data ++ out) /\
      map timestamp out = mockTimestamps today interval i /\
      Forall (fun p =>
                isFinite (price p) = true /\
                nge (price p) (num_of_Z 1) = true /\
                toFixed2 (price p) = price p /\
                (exists j, volume p = Qfloor (random j * 1000000)) /\
                exists t, timestamp p = inject_Z t /\
                          displayDate interval (Some t) = Some (date p)) out.
Proof.
  intros Ht. pose proof (stepMillis_range interval) as Hs.
  induction i as [| i IH]; intros b k data Hi.
  - destruct (mockChartLoop_step tza today random interval 0 (Fin b) k data)
      as (p & Hl & Hp & Hv & Hts & Hd).
    { unfold inTimeRange. apply andb_true_iff. split; apply Z.leb_le; unfold maxTime in *; lia. }
    exists [p]. split; [exact Hl |]. split; [cbn [map]; rewrite Hts; reflexivity |].
    constructor; [| constructor].
    destruct (mock_point_price random b k) as [Hf Hg].
    rewrite Hp. split; [exact Hf |]. split; [exact Hg |].
    split; [apply toFixed2_idempotent |].
    split; [exists (S k); exact Hv |]. eexists. split; [exact Hts | exact Hd].
  - destruct (mockChartLoop_step tza today random interval (S i) (Fin b) k data)
      as (p & Hl & Hp & Hv & Hts & Hd).
    { unfold inTimeRange. apply andb_true_iff. split; apply Z.leb_le; unfold maxTime in *; lia. }
    destruct (mockPrice_ok random b k) as (q & Hq & _).
    rewrite Hq in Hl.
    destruct (IH q (S (S k)) (data ++ [p])) as (out & Ho & Hto & Hall); [lia |].
    exists (p :: out). split.
    { rewrite Hl, Ho, <- app_assoc. reflexivity. }
    split.
    { rewrite mockTimestamps_S. cbn [map]. rewrite Hts, Hto. reflexivity. }
    constructor; [| exact Hall].
    destruct (mock_point_price random b k) as [Hf Hg].
    rewrite Hp. split; [exact Hf |]. split; [exact Hg |].
    split; [apply toFixed2_idempotent |].
    split; [exists (S k); exact Hv |]. eexists. split; [exact Hts | exact Hd].
Qed.

Lemma generateMockChartData_spec (tza today : Z) (random : nat -> Q)
    (interval : ChartTimeInterval) :
  0 <= today <= maxTime ->
  exists data,
    generateMockChartData tza today random interval = Some data /\
    map timestamp data
      = mockTimestamps today interval (getDataLimitForInterval interval) /\
    Forall (fun p =>
              isFinite (price p) = true /\
              nge (price p) (num_of_Z 1) = true /\
              toFixed2 (price p) = price p /\
              (exists j, volume p = Qfloor (random j * 1000000)) /\
              exists t, timestamp p = inject_Z t /\
                        displayDate interval (Some t) = Some (date p)) data.
Proof.
  intro Ht. unfold generateMockChartData.
  cbn [nadd nmul fin num_of_Z].
  apply (mockChartLoop_spec tza today random interval Ht
           (getDataLimitForInterval interval) _ 1%nat []).
  destruct interval; vm_compute; congruence.
Qed.



(** X23. Every point of the series of [generateMockChartData] has a finite
    price of 1 at least, rounded to two decimals, a volume from 0 to
    999999, and the display date of its timestamp. *)
Theorem mock_chart_points (tza today : Z) (random : nat -> Q)
    (interval : ChartTimeInterval) :
  0 <= today <= maxTime ->
  unitDraws random ->
  exists data,
    generateMockChartData tza today random interval = Some data /\
    Forall (mockPoint interval) data.
Proof.
  intros Ht Hr.
  destruct (generateMockChartData_spec tza today random interval Ht)
    as (data & Hg & _ & Hall).
  exists data. split; [exact Hg |].
  eapply Forall_impl; [| exact Hall].
  intros p (Hf & Hge & Hfix & (j & Hv) & Hd).
  unfold mockPoint. split; [exact Hf |]. split; [exact Hge |]. split; [exact Hfix |].
  split; [| exact Hd]. rewrite Hv. apply draw_volume, Hr.
Qed.

Lemma mock_chart_points_witness :
  exists data,
    generateMockChartData 18000000 1700000000000 sampleDraws I5min = Some data /\
    Forall (mockPoint I5min) data.
Proof.
  apply (mock_chart_points 18000000 1700000000000 sampleDraws I5min).
  - unfold maxTime. lia.
  - intro k. split; [vm_compute; discriminate | vm_compute; reflexivity].
Defined.



(** * Properties of the detail page *)

Lemma find_unlisted (symbol : string) (marketData : list Stock.StockData) :
  Forall (fun stock => Stock.symbol stock <> symbol) marketData ->
  find (fun stock => String.eqb (Stock.symbol stock) symbol) marketData = None.
Proof.
  induction 1 as [| stock r Hs _ IH]; [reflexivity |].
  cbn [find]. apply String.eqb_neq in Hs. rewrite Hs. exact IH.
Qed.

Lemma find_first_listed (symbol : string) (pre post : list Stock.StockData)
    (marketStock : Stock.StockData) :
  Forall (fun stock => Stock.symbol stock <> symbol) pre ->
  Stock.symbol marketStock = symbol ->
  find (fun stock => String.eqb (Stock.symbol stock) symbol) (pre ++ marketStock :: post)
  = Some marketStock.
Proof.
  intros Hpre Hs. induction Hpre as [| stock r Hn _ IH]; cbn [app find].
  - rewrite Hs, String.eqb_refl. reflexivity.
  - apply String.eqb_neq in Hn. rewrite Hn. exact IH.
Qed.

(** X25. For a symbol that the market data do not list, [fetchStockData]
    ends with the error message and requests nothing: the time series is
    not fetched, whatever the proxies would answer. *)
Theorem unlisted_symbol_is_an_error (tza : Z) (fetch : string -> SeriesResponse)
    (random : nat -> Q) (history : list History.HistoricalDataPoint)
    (marketData : list Stock.StockData) (symbol : string)
    (interval : ChartTimeInterval) :
  Forall (fun stock => Stock.symbol stock <> symbol) marketData ->
  fetchStockData tza fetch random history marketData symbol interval
  = (DetailError "Failed to fetch stock details. Please try again.", []).
Proof.
  intro H. unfold fetchStockData. rewrite (find_unlisted symbol marketData H).
  reflexivity.
Qed.

Lemma unlisted_symbol_is_an_error_witness :
  fetchStockData 18000000 secondProxyAnswers sampleDraws [] [stockDown; stockUp]
    "HBL" I5min
  = (DetailError "Failed to fetch stock details. Please try again.", []).
Proof.
  apply (unlisted_symbol_is_an_error 18000000 secondProxyAnswers sampleDraws []
           [stockDown; stockUp] "HBL" I5min).
  repeat constructor; discriminate.
Defined.

(** X26. For a listed symbol, [fetchStockData] shows the first record of the
    market data with that symbol: its company, sector, price, change and
    volume, not the placeholders of [fetchStockTimeSeries], of which only
    the chart is kept; the requests are those of [fetchStockTimeSeries]. *)
Theorem listed_symbol_shows_market_record (tza : Z) (fetch : string -> SeriesResponse)
    (random : nat -> Q) (history : list History.HistoricalDataPoint)
    (pre post : list Stock.StockData) (marketStock : Stock.StockData)
    (symbol : string) (interval : ChartTimeInterval) :
  Forall (fun stock => Stock.symbol stock <> symbol) pre ->
  Stock.symbol marketStock = symbol ->
  exists stockData,
    fetchStockData tza fetch random history (pre ++ marketStock :: post) symbol interval
    = (DetailData stockData, snd (fetchStockTimeSeries tza fetch symbol interval)) /\
    Series.symbol stockData = symbol /\
    Series.company stockData = Stock.company marketStock /\
    Series.sector stockData = Stock.sector marketStock /\
    Series.currentPrice stockData = Stock.current marketStock /\
    Series.change stockData = Stock.change marketStock /\
    Series.changePercent stockData = Stock.changePercent marketStock /\
    Series.volume stockData = Stock.volume marketStock /\
    Series.historicalData stockData = history /\
    Series.chartData stockData
    = Series.chartData (fst (fetchStockTimeSeries tza fetch symbol interval)).
Proof.
  intros Hpre Hs. unfold fetchStockData.
  rewrite (find_first_listed symbol pre post marketStock Hpre Hs).
  destruct (fetchStockTimeSeries tza fetch symbol interval) as [series requests].
  eexists. split; [reflexivity |].
  cbn [fst snd buildStockTimeSeriesFromMarketData Series.symbol Series.company
       Series.sector Series.currentPrice Series.change Series.changePercent
       Series.volume Series.historicalData Series.chartData].
  repeat split; try reflexivity. exact Hs.
Qed.

Lemma listed_symbol_shows_market_record_witness :
  exists stockData,
    fetchStockData 18000000 secondProxyAnswers sampleDraws []
      ([stockDown] ++ stockUp :: [stockWithoutChange]) "GGL" I5min
    = (DetailData stockData,
       snd (fetchStockTimeSeries 18000000 secondProxyAnswers "GGL" I5min)) /\
    Series.symbol stockData = "GGL"%string /\
    Series.company stockData = Stock.company stockUp /\
    Series.sector stockData = Stock.sector stockUp /\
    Series.currentPrice stockData = Stock.current stockUp /\
    Series.change stockData = Stock.change stockUp /\
    Series.changePercent stockData = Stock.changePercent stockUp /\
    Series.volume stockData = Stock.volume stockUp /\
    Series.historicalData stockData = [] /\
    Series.chartData stockData
    = Series.chartData (fst (fetchStockTimeSeries 18000000 secondProxyAnswers "GGL" I5min)).
Proof.
  apply (listed_symbol_shows_market_record 18000000 secondProxyAnswers sampleDraws []
           [stockDown] [stockWithoutChange] stockUp "GGL" I5min).
  - repeat constructor; discriminate.
  - reflexivity.
Defined.
